(** * A blog application: data model, request handlers and their properties

    Shallow embedding of [main.py]: three tables ([users], [blog_posts],
    [comment]) behind an ORM session, a login session, flashed messages,
    an administrator guard, ten routes and an outbound SMTP exchange.

    Handlers are computations in a state-and-exception monad [M]: the state
    holds everything a request can read or change, and an exception is what
    [abort], a failed [commit] or a failed SMTP call raises. *)

From Stdlib Require Import ZArith String List.
From stdpp Require Import base option list strings gmap fin_maps sorting.

Open Scope Z_scope.
Open Scope string_scope.

(** ** Data model *)

(** Rows are stored under their primary key; the records below hold the other
    columns. *)

Module User.
Record t := mk { email : string; password : string; name : string }.
End User.

(** [post_id] is a nullable foreign key: [None] is NULL. *)
Module Comment.
Record t := mk { author_id : Z; post_id : option Z; text : string }.
Definition set_post_id (v : option Z) (c : t) : t := mk (author_id c) v (text c).
End Comment.

Module BlogPost.
Record t := mk {
  author_id : Z;
  title : string;
  subtitle : string;
  date : string;
  body : string;
  img_url : string
}.
Definition set_title (v : string) (p : t) : t :=
  mk (author_id p) v (subtitle p) (date p) (body p) (img_url p).
Definition set_subtitle (v : string) (p : t) : t :=
  mk (author_id p) (title p) v (date p) (body p) (img_url p).
Definition set_img_url (v : string) (p : t) : t :=
  mk (author_id p) (title p) (subtitle p) (date p) (body p) v.
Definition set_author_id (v : Z) (p : t) : t :=
  mk v (title p) (subtitle p) (date p) (body p) (img_url p).
Definition set_body (v : string) (p : t) : t :=
  mk (author_id p) (title p) (subtitle p) (date p) v (img_url p).
End BlogPost.

Record Db := mkDb {
  users : gmap Z User.t;
  blog_posts : gmap Z BlogPost.t;
  comment : gmap Z Comment.t
}.

(** What the ORM session holds until [commit]: objects added, a loaded post
    whose attributes were assigned, a post marked for deletion. *)
Inductive Change :=
| Add_User (u : User.t)
| Add_Comment (c : Comment.t)
| Add_BlogPost (p : BlogPost.t)
| Dirty_BlogPost (id : Z) (p : BlogPost.t)
| Delete_BlogPost (id : Z).

(** ** The outbound mail exchange *)

Inductive SmtpCall := Connect | StartTLS | Login | SendMail.

Inductive SmtpEvent :=
| Connected (host : string)
| TlsStarted
| LoggedIn (user password : option string)
| Sent (from_addr to_addrs : option string) (msg : string)
| Closed.

(** ** Requests and responses *)

Inductive Method := GET | POST.

Global Instance Method_eq_dec : EqDecision Method.
Proof. solve_decision. Defined.

(** [form] is the submitted form body, in submission order. *)
Record Request := mkRequest {
  method : Method;
  form : list (string * string)
}.

(** What a handler reads from outside the application while it runs: the
    clock, the salt drawn for a new password hash, the process environment,
    and whether the mail relay lets each SMTP call through. *)
Record Ambient := mkAmbient {
  today : string;
  salt : string;
  environ : string → option string;
  relay : SmtpCall → bool
}.

Inductive Endpoint :=
| to_get_all_posts
| to_login
| to_show_post (post_id : Z).

Module CreatePostForm.
Record t := mk {
  title : string;
  subtitle : string;
  img_url : string;
  body : string;
  validate : bool
}.
End CreatePostForm.

Module RegisterForm.
Record t := mk { name : string; email : string; password : string; validate : bool }.
End RegisterForm.

Module LoginForm.
Record t := mk { email : string; password : string; validate : bool }.
End LoginForm.

Module CommentForm.
Record t := mk { comment : string; validate : bool }.
End CommentForm.

Inductive Page :=
| register_html (form : RegisterForm.t)
| login_html (form : LoginForm.t)
| index_html (all_posts : list (Z * BlogPost.t))
| post_html (post : Z * BlogPost.t) (form : CommentForm.t)
            (post_comments : list (Z * Comment.t))
| make_post_html (form : CreatePostForm.t) (is_edit : bool)
| about_html
| contact_html.

Inductive Response :=
| redirect (location : Endpoint)
| render_template (page : Page)
| error (code : Z).

(** ** Application state *)

(** What one request leaves to the next: the database, the login session
    (the key of the logged-in user and the flashed messages) and the
    record of what was said to the mail relay. *)
Record State := mkState {
  db : Db;
  user_id : option Z;
  flashes : list string;
  smtp_log : list SmtpEvent
}.

Definition set_db (d : Db) (st : State) : State :=
  mkState d (user_id st) (flashes st) (smtp_log st).
Definition set_user_id (u : option Z) (st : State) : State :=
  mkState (db st) u (flashes st) (smtp_log st).
Definition set_flashes (fs : list string) (st : State) : State :=
  mkState (db st) (user_id st) fs (smtp_log st).
Definition set_smtp_log (l : list SmtpEvent) (st : State) : State :=
  mkState (db st) (user_id st) (flashes st) l.

(** What lives for one request only: the ORM session with its pending
    statements and the last key an [INSERT] assigned. *)
Record Ctx := mkCtx {
  app : State;
  db_session : list Change;
  lastrowid : Z
}.

Definition set_app (st : State) (c : Ctx) : Ctx :=
  mkCtx st (db_session c) (lastrowid c).
Definition set_db_session (cs : list Change) (c : Ctx) : Ctx :=
  mkCtx (app c) cs (lastrowid c).

(** ** The handler monad *)

Inductive DbError := IntegrityError | StaleDataError.

Inductive Exn :=
| HTTPException (code : Z)
| SQLAlchemyError (e : DbError)
| SMTPException (call : SmtpCall)
| AttributeError
| OverflowError.

Inductive Result (A : Type) :=
| Ok (a : A)
| Raise (e : Exn).
Arguments Ok {A} a.
Arguments Raise {A} e.

Definition M (A : Type) : Type := Ctx → Result A * Ctx.

Global Instance M_ret : MRet M := λ A a c, (Ok a, c).

Global Instance M_bind : MBind M := λ A B f m c,
  match m c with
  | (Ok a, c') => f a c'
  | (Raise e, c') => (Raise e, c')
  end.

Definition gets {A} (f : State → A) : M A := λ c, (Ok (f (app c)), c).
Definition modify (f : State → State) : M unit := λ c, (Ok tt, set_app (f (app c)) c).
Definition raise {A} (e : Exn) : M A := λ c, (Raise e, c).
Definition abort {A} (code : Z) : M A := raise (HTTPException code).

(** ** Storage *)

(** The key an [INSERT] receives: one more than the largest key in use, as
    in the SQLite database the application uses by default. *)
Definition next_id {A} (table : gmap Z A) : Z :=
  1 + foldr Z.max 0 (map_to_list table).*1.

(** The integers the database stores: 64-bit signed. The driver raises
    [OverflowError] when handed any other. *)
Definition sqlite_integer (n : Z) : bool :=
  bool_decide (- 2 ^ 63 ≤ n ≤ 2 ^ 63 - 1)%Z.

(** The rows of a table in storage order, that is by ascending key. *)
Definition by_key {A} (r1 r2 : Z * A) : Prop := (r1.1 ≤ r2.1)%Z.

Global Instance by_key_dec {A} (r1 r2 : Z * A) : Decision (by_key r1 r2).
Proof. unfold by_key. apply _. Defined.

Definition select {A} (table : gmap Z A) : list (Z * A) :=
  merge_sort by_key (map_to_list table).

(** What deleting post [id] does to a comment: [BlogPost.comments] has no
    delete cascade, so the ORM sets the foreign key of each comment of the
    post to NULL and keeps the row. *)
Definition orphan (id : Z) (c : Comment.t) : Comment.t :=
  if bool_decide (Comment.post_id c = Some id)
  then Comment.set_post_id None c
  else c.

(** [unique=True] on [users.email] and on [blog_posts.title]. An [UPDATE] of
    row [except] may keep that row's own title. *)
Definition email_free (us : gmap Z User.t) (e : string) : bool :=
  bool_decide (map_Forall (λ _ u, User.email u ≠ e) us).

Definition title_free (ps : gmap Z BlogPost.t) (except : option Z) (t : string) : bool :=
  bool_decide (map_Forall (λ k p, Some k = except ∨ BlogPost.title p ≠ t) ps).

Inductive Flushed :=
| flushed (d : Db) (last : Z)
| rejected (e : DbError).

(** One statement of a flush: the tables after it and the last key an
    [INSERT] assigned. *)
Definition apply_change (c : Change) (d : Db) (last : Z) : Flushed :=
  match c with
  | Add_User u =>
      if email_free (users d) (User.email u)
      then let k := next_id (users d) in
           flushed (mkDb (<[k:=u]> (users d)) (blog_posts d) (comment d)) k
      else rejected IntegrityError
  | Add_Comment c =>
      let k := next_id (comment d) in
      flushed (mkDb (users d) (blog_posts d) (<[k:=c]> (comment d))) k
  | Add_BlogPost p =>
      if title_free (blog_posts d) None (BlogPost.title p)
      then let k := next_id (blog_posts d) in
           flushed (mkDb (users d) (<[k:=p]> (blog_posts d)) (comment d)) k
      else rejected IntegrityError
  | Dirty_BlogPost id p =>
      match blog_posts d !! id with
      | None => rejected StaleDataError
      | Some _ =>
          if title_free (blog_posts d) (Some id) (BlogPost.title p)
          then flushed (mkDb (users d) (<[id:=p]> (blog_posts d)) (comment d)) last
          else rejected IntegrityError
      end
  | Delete_BlogPost id =>
      flushed (mkDb (users d) (delete id (blog_posts d)) (orphan id <$> comment d)) last
  end.

(** The statements of one transaction, in order; the first rejected one
    rejects the whole transaction. *)
Fixpoint flush (cs : list Change) (d : Db) (last : Z) : Flushed :=
  match cs with
  | [] => flushed d last
  | c :: cs' =>
      match apply_change c d last with
      | flushed d' last' => flush cs' d' last'
      | rejected e => rejected e
      end
  end.

(** [User.query.filter_by(email=email).first()] *)
Definition User_query_filter_by_email_first (e : string) (us : gmap Z User.t)
  : option (Z * User.t) :=
  List.find (λ r, bool_decide (User.email r.2 = e)) (select us).

(** [Comment.query.filter_by(post_id=post_id)] *)
Definition Comment_query_filter_by_post_id (post_id : Z) (cs : gmap Z Comment.t)
  : list (Z * Comment.t) :=
  List.filter (λ r, bool_decide (Comment.post_id r.2 = Some post_id)) (select cs).

(** No two stored posts share a title. *)
Definition unique_titles (ps : gmap Z BlogPost.t) : Prop :=
  ∀ i j p q, ps !! i = Some p → ps !! j = Some q →
             BlogPost.title p = BlogPost.title q → i = j.

(** ** Flask, Flask-Login and the ORM session, as the handlers use them *)

Definition flash (message : string) : M unit :=
  modify (λ st, set_flashes (flashes st ++ [message]) st).

Definition load_user (uid : Z) (st : State) : option User.t :=
  users (db st) !! uid.

(** The identity of a request: the row the login session names, with its
    key; [None] is the anonymous identity. *)
Definition get_user (st : State) : option (Z * User.t) :=
  k ← user_id st; pair k <$> load_user k st.

Definition current_user : M (option (Z * User.t)) := gets get_user.

Definition is_authenticated (cu : option (Z * User.t)) : bool :=
  match cu with Some _ => true | None => false end.

Definition login_user (k : Z) : M unit := modify (set_user_id (Some k)).
Definition logout_user : M unit := modify (set_user_id None).

Definition db_session_add (x : Change) : M unit :=
  λ c, (Ok tt, set_db_session (db_session c ++ [x]) c).

Definition db_session_delete (id : Z) : M unit :=
  db_session_add (Delete_BlogPost id).

(** [db.session.commit()]: all pending statements take effect, or none does
    and the error is raised. *)
Definition db_session_commit : M unit := λ c,
  match flush (db_session c) (db (app c)) (lastrowid c) with
  | flushed d k => (Ok tt, mkCtx (set_db d (app c)) [] k)
  | rejected e => (Raise (SQLAlchemyError e), c)
  end.

(** The [id] of an object this session has just inserted. *)
Definition inserted_id : M Z := λ c, (Ok (lastrowid c), c).

(** [db.get_or_404(BlogPost, post_id)]: the stored row, 404 when there is
    none, and the driver's [OverflowError] for an id that is not a database
    integer. No row is stored under such an id, so the row is looked up
    first here and the range tested when there is none. *)
Definition get_or_404 (post_id : Z) : M BlogPost.t :=
  row ← gets (λ st, blog_posts (db st) !! post_id);
  match row with
  | Some post => mret post
  | None => if sqlite_integer post_id then abort 404 else raise OverflowError
  end.

(** [request.form.get(key)]: the first value submitted under [key]. *)
Definition form_get (request : Request) (key : string) : option string :=
  snd <$> List.find (λ kv, bool_decide (kv.1 = key)) (form request).

(** How an f-string renders a value that may be [None]. *)
Definition format_value (v : option string) : string :=
  match v with Some s => s | None => "None" end.

Definition newline : string := String (Ascii.ascii_of_nat 10) EmptyString.

(** The form classes of [forms.py] and the password hashing of
    [werkzeug.security] are not part of [main.py]; the handlers are written
    against these interfaces. A form is built from the request, and
    [CreatePostForm] also from the post whose values pre-populate it. *)
Class Forms := {
  new_RegisterForm : Request → RegisterForm.t;
  new_LoginForm : Request → LoginForm.t;
  new_CommentForm : Request → CommentForm.t;
  new_CreatePostForm : Request → option BlogPost.t → CreatePostForm.t
}.

Class Werkzeug := {
  generate_password_hash : string → string → string;
  check_password_hash : string → string → bool
}.

(** A form counts as submitted when the request is a POST. *)
Definition is_submitted (request : Request) : bool :=
  bool_decide (method request = POST).

(** [form.validate_on_submit()], given what [form.validate()] answers. *)
Definition validate_on_submit (request : Request) (validate : bool) : bool :=
  is_submitted request && validate.

(** ** The SMTP client *)

Section Smtp.
Variable world : Ambient.

(** A call the relay lets through is recorded; one it refuses raises. *)
Definition smtp_call (c : SmtpCall) (ev : SmtpEvent) : M unit :=
  if relay world c
  then modify (λ st, set_smtp_log (smtp_log st ++ [ev]) st)
  else raise (SMTPException c).

Definition SMTP (host : string) : M unit := smtp_call Connect (Connected host).
Definition starttls : M unit := smtp_call StartTLS TlsStarted.
Definition smtp_login (user password : option string) : M unit :=
  smtp_call Login (LoggedIn user password).
Definition sendmail (from_addr to_addrs : option string) (msg : string) : M unit :=
  smtp_call SendMail (Sent from_addr to_addrs msg).
Definition close : M unit :=
  modify (λ st, set_smtp_log (smtp_log st ++ [Closed]) st).

End Smtp.

(** ** The guards *)

(** [admin_only]: the decorator of the three post-authoring routes. *)
Definition admin_only {A} (function : M A) : M A :=
  cu ← current_user;
  if negb (is_authenticated cu) || negb (bool_decide (fst <$> cu = Some 1))
  then abort 403
  else function.

(** [login_required]: no login view is configured, so an anonymous request
    is answered 401. *)
Definition login_required {A} (function : M A) : M A :=
  cu ← current_user;
  if negb (is_authenticated cu) then abort 401 else function.

(** The key of a mapped [User] object; the anonymous identity is not one. *)
Definition mapped_id (cu : option (Z * User.t)) : M Z :=
  match cu with
  | Some (k, _) => mret k
  | None => raise AttributeError
  end.

(** ** The routes *)

Section Routes.
Context `{forms : Forms} `{werkzeug : Werkzeug}.
Variable request : Request.
Variable world : Ambient.

Definition register : M Response :=
  let form := new_RegisterForm request in
  if bool_decide (method request = POST)
     && validate_on_submit request (RegisterForm.validate form)
  then
    let email := RegisterForm.email form in
    existing_user ← gets (λ st, User_query_filter_by_email_first email (users (db st)));
    match existing_user with
    | None =>
        let new_user :=
          User.mk (RegisterForm.email form)
                  (generate_password_hash (RegisterForm.password form) (salt world))
                  (RegisterForm.name form) in
        db_session_add (Add_User new_user);;
        db_session_commit;;
        new_user_id ← inserted_id;
        login_user new_user_id;;
        mret (redirect to_get_all_posts)
    | Some _ =>
        flash "E-mail already registered!";;
        mret (redirect to_login)
    end
  else mret (render_template (register_html form)).

Definition login : M Response :=
  let form := new_LoginForm request in
  if validate_on_submit request (LoginForm.validate form)
  then
    let email := LoginForm.email form in
    user ← gets (λ st, User_query_filter_by_email_first email (users (db st)));
    match user with
    | Some (k, u) =>
        if check_password_hash (User.password u) (LoginForm.password form)
        then login_user k;; mret (redirect to_get_all_posts)
        else flash "Invalid email or password!";; mret (redirect to_login)
    | None =>
        flash "Invalid email or password!";; mret (redirect to_login)
    end
  else mret (render_template (login_html form)).

Definition logout : M Response :=
  login_required (logout_user;; mret (redirect to_get_all_posts)).

Definition get_all_posts : M Response :=
  posts ← gets (λ st, select (blog_posts (db st)));
  mret (render_template (index_html posts)).

Definition show_post (post_id : Z) : M Response :=
  let form := new_CommentForm request in
  requested_post ← get_or_404 post_id;
  comments ← gets (λ st, Comment_query_filter_by_post_id post_id (comment (db st)));
  if validate_on_submit request (CommentForm.validate form)
  then
    cu ← current_user;
    if is_authenticated cu
    then
      author ← mapped_id cu;
      let new_comment := Comment.mk author (Some post_id) (CommentForm.comment form) in
      db_session_add (Add_Comment new_comment);;
      db_session_commit;;
      mret (redirect (to_show_post post_id))
    else
      flash "You have to login first!";;
      mret (redirect to_login)
  else
    mret (render_template (post_html (post_id, requested_post) form comments)).

Definition add_new_post_wrapped : M Response :=
  let form := new_CreatePostForm request None in
  if validate_on_submit request (CreatePostForm.validate form)
  then
    cu ← current_user;
    author ← mapped_id cu;
    let new_post :=
      BlogPost.mk author
                  (CreatePostForm.title form)
                  (CreatePostForm.subtitle form)
                  (today world)
                  (CreatePostForm.body form)
                  (CreatePostForm.img_url form) in
    db_session_add (Add_BlogPost new_post);;
    db_session_commit;;
    mret (redirect to_get_all_posts)
  else mret (render_template (make_post_html form false)).

Definition add_new_post : M Response := admin_only add_new_post_wrapped.

Definition edit_post_wrapped (post_id : Z) : M Response :=
  post ← get_or_404 post_id;
  let edit_form := new_CreatePostForm request (Some post) in
  if validate_on_submit request (CreatePostForm.validate edit_form)
  then
    let post := BlogPost.set_title (CreatePostForm.title edit_form) post in
    let post := BlogPost.set_subtitle (CreatePostForm.subtitle edit_form) post in
    let post := BlogPost.set_img_url (CreatePostForm.img_url edit_form) post in
    cu ← current_user;
    author ← mapped_id cu;
    let post := BlogPost.set_author_id author post in
    let post := BlogPost.set_body (CreatePostForm.body edit_form) post in
    db_session_add (Dirty_BlogPost post_id post);;
    db_session_commit;;
    mret (redirect (to_show_post post_id))
  else mret (render_template (make_post_html edit_form true)).

Definition edit_post (post_id : Z) : M Response :=
  admin_only (edit_post_wrapped post_id).

Definition delete_post_wrapped (post_id : Z) : M Response :=
  _ ← get_or_404 post_id;
  db_session_delete post_id;;
  db_session_commit;;
  mret (redirect to_get_all_posts).

Definition delete_post (post_id : Z) : M Response :=
  admin_only (delete_post_wrapped post_id).

Definition about : M Response := mret (render_template about_html).

(** The body of the message the contact handler sends. *)
Definition contact_msg : string :=
  "By:" ++ format_value (form_get request "name") ++ "  "
        ++ format_value (form_get request "email") ++ newline
        ++ format_value (form_get request "message").

Definition contact_wrapped : M Response :=
  if bool_decide (method request = POST)
  then
    SMTP world "smtp.gmail.com";;
    starttls world;;
    smtp_login world (environ world "CONTACT_EMAIL") (environ world "CONTACT_PASS");;
    sendmail world (environ world "CONTACT_EMAIL") (environ world "MY_EMAIL") contact_msg;;
    close;;
    mret (redirect to_get_all_posts)
  else mret (render_template contact_html).

Definition contact : M Response := login_required contact_wrapped.

End Routes.

(** ** The application *)

(** An HTTP error keeps its status; any other exception is a server error. *)
Definition handle_exception (e : Exn) : Response :=
  match e with
  | HTTPException code => error code
  | _ => error 500
  end.

(** One request through a view: a fresh ORM session, the view, the response
    or the error page, and the session discarded. *)
Definition serve (view : M Response) (st : State) : Response * State :=
  match view (mkCtx st [] 0) with
  | (Ok r, c) => (r, app c)
  | (Raise e, c) => (handle_exception e, app c)
  end.

Inductive Route :=
| route_register
| route_login
| route_logout
| route_get_all_posts
| route_show_post (post_id : Z)
| route_add_new_post
| route_edit_post (post_id : Z)
| route_delete_post (post_id : Z)
| route_about
| route_contact.

Definition methods (r : Route) : list Method :=
  match r with
  | route_register | route_login | route_show_post _
  | route_add_new_post | route_edit_post _ | route_contact => [GET; POST]
  | route_logout | route_get_all_posts | route_delete_post _ | route_about => [GET]
  end.

(** The [<int:post_id>] converter matches digits only: a URL with a
    negative id matches no route. *)
Definition url_matches (r : Route) : bool :=
  match r with
  | route_show_post post_id | route_edit_post post_id | route_delete_post post_id =>
      bool_decide (0 ≤ post_id)%Z
  | _ => true
  end.

Record Call := mkCall {
  call_route : Route;
  call_request : Request;
  call_world : Ambient
}.

Section App.
Context `{forms : Forms} `{werkzeug : Werkzeug}.

Definition view_function (request : Request) (world : Ambient) (r : Route) : M Response :=
  match r with
  | route_register => register request world
  | route_login => login request
  | route_logout => logout
  | route_get_all_posts => get_all_posts
  | route_show_post post_id => show_post request post_id
  | route_add_new_post => add_new_post request world
  | route_edit_post post_id => edit_post request post_id
  | route_delete_post post_id => delete_post post_id
  | route_about => about
  | route_contact => contact request world
  end.

Definition dispatch_request (call : Call) : M Response :=
  if negb (url_matches (call_route call)) then abort 404
  else if bool_decide (method (call_request call) ∈ methods (call_route call))
  then view_function (call_request call) (call_world call) (call_route call)
  else abort 405.

Definition wsgi_app (call : Call) (st : State) : Response * State :=
  serve (dispatch_request call) st.

(** The state after a sequence of requests. *)
Definition run (calls : list Call) (st : State) : State :=
  foldl (λ st call, (wsgi_app call st).2) st calls.

End App.

(** ** A concrete instance, to run the handlers on sample requests *)

Definition required (s : string) : bool := negb (bool_decide (s = "")).

Definition field (request : Request) (key default : string) : string :=
  match form_get request key with Some v => v | None => default end.

Definition sample_forms : Forms := {|
  new_RegisterForm request :=
    let name := field request "name" "" in
    let email := field request "email" "" in
    let password := field request "password" "" in
    RegisterForm.mk name email password
                    (required name && required email && required password);
  new_LoginForm request :=
    let email := field request "email" "" in
    let password := field request "password" "" in
    LoginForm.mk email password (required email && required password);
  new_CommentForm request :=
    let comment := field request "comment" "" in
    CommentForm.mk comment (required comment);
  new_CreatePostForm request obj :=
    let title := field request "title" (from_option BlogPost.title "" obj) in
    let subtitle := field request "subtitle" (from_option BlogPost.subtitle "" obj) in
    let img_url := field request "img_url" (from_option BlogPost.img_url "" obj) in
    let body := field request "body" (from_option BlogPost.body "" obj) in
    CreatePostForm.mk title subtitle img_url body
                      (required title && required subtitle
                       && required img_url && required body)
|}.

Definition sample_werkzeug : Werkzeug := {|
  generate_password_hash password salt := "plain$" ++ password;
  check_password_hash pwhash password := bool_decide (pwhash = "plain$" ++ password)
|}.

(** ** Sample data *)

Definition admin_row : User.t := User.mk "admin@blog.example" "plain$root" "Admin".
Definition reader_row : User.t := User.mk "reader@blog.example" "plain$secret" "Reader".

Definition first_post : BlogPost.t :=
  BlogPost.mk 1 "Hello" "A first post" "April 05, 2024" "<p>Hi</p>" "img/1.png".
Definition second_post : BlogPost.t :=
  BlogPost.mk 1 "Again" "A second post" "April 06, 2024" "<p>More</p>" "img/2.png".

Definition sample_db : Db :=
  mkDb {[1 := admin_row; 2 := reader_row]} {[1 := first_post; 2 := second_post]} ∅.

Definition as_anonymous : State := mkState sample_db None [] [].
Definition as_admin : State := mkState sample_db (Some 1) [] [].
Definition as_reader : State := mkState sample_db (Some 2) [] [].

Definition quiet_world : Ambient :=
  mkAmbient "May 01, 2024" "salt" (λ _, None) (λ _, true).

Definition get_request : Request := mkRequest GET [].

Definition register_again : Request :=
  mkRequest POST [("name", "Reader"); ("email", "reader@blog.example");
                  ("password", "other")].

Definition login_unknown : Request :=
  mkRequest POST [("email", "nobody@blog.example"); ("password", "secret")].
Definition login_mistyped : Request :=
  mkRequest POST [("email", "reader@blog.example"); ("password", "sekret")].

Definition comment_hello : Request := mkRequest POST [("comment", "hello")].

Definition edit_subtitle : Request :=
  mkRequest POST [("title", "Again"); ("subtitle", "Revised");
                  ("img_url", "img/2.png"); ("body", "<p>More</p>")].
Definition edit_to_taken_title : Request :=
  mkRequest POST [("title", "Hello"); ("subtitle", "Revised");
                  ("img_url", "img/2.png"); ("body", "<p>More</p>")].

Definition contact_full : Request :=
  mkRequest POST [("name", "Ann"); ("email", "ann@blog.example"); ("message", "Hi")].
Definition contact_no_email : Request :=
  mkRequest POST [("name", "Ann"); ("message", "Hi")].

Definition create_hello : Request :=
  mkRequest POST [("title", "Hello"); ("subtitle", "Once more");
                  ("img_url", "img/3.png"); ("body", "<p>Again</p>")].

(** The application just after [db.create_all()], the administrator
    registered and logged in. *)
Definition fresh_admin : State :=
  mkState (mkDb {[1 := admin_row]} ∅ ∅) (Some 1) [] [].

(** The sample database with one comment by the reader on the first post,
    the administrator logged in. *)
Definition hello_comment : Comment.t := Comment.mk 2 (Some 1) "hello".
Definition commented : State :=
  mkState (mkDb (users sample_db) (blog_posts sample_db) {[1 := hello_comment]})
          (Some 1) [] [].

Definition register_ann : Request :=
  mkRequest POST [("name", "Ann"); ("email", "ann@blog.example"); ("password", "pw")].
Definition login_ann : Request :=
  mkRequest POST [("email", "ann@blog.example"); ("password", "pw")].
Definition login_reader : Request :=
  mkRequest POST [("email", "reader@blog.example"); ("password", "secret")].
Definition create_news : Request :=
  mkRequest POST [("title", "News"); ("subtitle", "Fresh"); ("img_url", "img/9.png");
                  ("body", "<p>New</p>")].

(** The application just after [db.create_all()]: empty tables, nobody
    logged in. *)
Definition just_created : State := mkState (mkDb ∅ ∅ ∅) None [] [].

(** A relay that accepts the connection and TLS and rejects the credentials. *)
Definition rejecting_world : Ambient :=
  mkAmbient "May 01, 2024" "salt" (λ _, None)
            (λ call, match call with Connect | StartTLS => true | _ => false end).

(** ** Predicates of the specification *)

(** The administrator: a login session whose user is the stored row 1. *)
Definition is_admin (st : State) : bool :=
  bool_decide (user_id st = Some 1 ∧ is_Some (users (db st) !! 1)).

(** Why a login submission fails: no stored user has the submitted email,
    or one has and the submitted password does not match its hash. *)
Definition unknown_email `{Forms} (request : Request) (st : State) : Prop :=
  User_query_filter_by_email_first
    (LoginForm.email (new_LoginForm request)) (users (db st)) = None.

Definition wrong_password `{Forms} `{Werkzeug} (request : Request) (st : State) : Prop :=
  ∃ k u,
    User_query_filter_by_email_first
      (LoginForm.email (new_LoginForm request)) (users (db st)) = Some (k, u)
    ∧ check_password_hash (User.password u)
                          (LoginForm.password (new_LoginForm request)) = false.

(** The request with one more form field submitted in front. *)
Definition with_field (key value : string) (request : Request) : Request :=
  mkRequest (method request) ((key, value) :: form request).

(** What the contact handler says to the relay when every call goes through. *)
Definition contact_exchange (request : Request) (world : Ambient) : list SmtpEvent :=
  [Connected "smtp.gmail.com";
   TlsStarted;
   LoggedIn (environ world "CONTACT_EMAIL") (environ world "CONTACT_PASS");
   Sent (environ world "CONTACT_EMAIL") (environ world "MY_EMAIL") (contact_msg request);
   Closed].

(** A computation keeps [I] when it leads from states where [I] holds only
    to states where [I] holds, whether it returns or raises. *)
Definition keeps (I : State → Prop) {A} (m : M A) : Prop :=
  ∀ c r c', I (app c) → m c = (r, c') → I (app c').

Definition titles_ok (st : State) : Prop := unique_titles (blog_posts (db st)).

(** ** Invariants of the request context *)

(** A computation holds [J] when it leads from contexts where [J] holds only
    to contexts where [J] holds, whether it returns or raises. *)
Definition holds (J : Ctx → Prop) {A} (m : M A) : Prop :=
  ∀ c r c', J c → m c = (r, c') → J c'.

(** The state satisfies [I] and every pending statement is one of [P]. *)
Definition tracked (I : State → Prop) (P : Change → Prop) (c : Ctx) : Prop :=
  I (app c) ∧ Forall P (db_session c).

(** What [I] must survive for the login session, the flashed messages and
    the mail log to be free to change. *)
Definition flash_closed (I : State → Prop) : Prop :=
  ∀ st message, I st → I (set_flashes (flashes st ++ [message]) st).
Definition user_closed (I : State → Prop) : Prop :=
  ∀ st u, I st → I (set_user_id u st).
Definition smtp_closed (I : State → Prop) : Prop :=
  ∀ st ev, I st → I (set_smtp_log (smtp_log st ++ [ev]) st).

(** No two stored users share an email. *)
Definition unique_emails (us : gmap Z User.t) : Prop :=
  ∀ i j u v, us !! i = Some u → us !! j = Some v →
             User.email u = User.email v → i = j.

(** The statements that leave the posts table alone. *)
Definition spares_posts (x : Change) : Prop :=
  match x with
  | Add_User _ | Add_Comment _ => True
  | _ => False
  end.

(** The login session, if any, names a stored user. *)
Definition session_valid (st : State) : Prop :=
  ∀ k, user_id st = Some k → is_Some (users (db st) !! k).

(** * Properties *)

(** ** The monad, step by step *)

Lemma bind_ok {A B} (m : M A) (f : A → M B) c a c' :
  m c = (Ok a, c') → (m ≫= f) c = f a c'.
Proof. intros Hm. unfold mbind, M_bind. by rewrite Hm. Qed.

Lemma bind_raise {A B} (m : M A) (f : A → M B) c e c' :
  m c = (Raise e, c') → (m ≫= f) c = (Raise e, c').
Proof. intros Hm. unfold mbind, M_bind. by rewrite Hm. Qed.

Lemma bind_gets {A B} (g : State → A) (f : A → M B) c :
  (gets g ≫= f) c = f (g (app c)) c.
Proof. reflexivity. Qed.

Lemma bind_modify {B} (g : State → State) (f : unit → M B) c :
  (modify g ≫= f) c = f tt (set_app (g (app c)) c).
Proof. reflexivity. Qed.

Lemma set_app_id c : set_app (app c) c = c.
Proof. by destruct c. Qed.

(** ** The administrator guard *)

Lemma is_admin_get_user st :
  is_admin st = true ↔ ∃ u, get_user st = Some (1, u).
Proof.
  unfold is_admin, get_user, load_user. rewrite bool_decide_eq_true. split.
  - intros [Hs [u Hu]]. exists u. rewrite Hs. simpl. by rewrite Hu.
  - intros [u Hu]. destruct (user_id st) as [k|]; simpl in Hu; [|done].
    destruct (users (db st) !! k) as [v|] eqn:Hk; simpl in Hu; [|done].
    injection Hu as -> ->. eauto.
Qed.

Lemma guard_condition st :
  negb (is_authenticated (get_user st))
  || negb (bool_decide (fst <$> get_user st = Some 1)) = negb (is_admin st).
Proof.
  destruct (is_admin st) eqn:Ha.
  - apply is_admin_get_user in Ha as [u ->]. reflexivity.
  - destruct (get_user st) as [[k u]|] eqn:Hg; [|done]. simpl.
    case_bool_decide as Hk; [|done]. simplify_eq/=.
    assert (is_admin st = true) by (apply is_admin_get_user; eauto).
    congruence.
Qed.

Lemma admin_only_eq {A} (function : M A) c :
  admin_only function c
  = if is_admin (app c) then function c else (Raise (HTTPException 403), c).
Proof.
  unfold admin_only, current_user. rewrite bind_gets, guard_condition.
  by destruct (is_admin (app c)).
Qed.

Lemma serve_admin_only (function : M Response) st :
  serve (admin_only function) st
  = if is_admin st then serve function st else (error 403, st).
Proof.
  unfold serve. rewrite admin_only_eq. simpl. by destruct (is_admin st).
Qed.

(** C1. On the create-post, edit-post and delete-post handlers, a request
    with no active session, or whose identity is not row 1, is answered
    403 Forbidden with the state left as it was; any other request runs the
    wrapped handler, unchanged. *)
Theorem admin_only_forbids_or_runs_wrapped
  `{forms : Forms} `{werkzeug : Werkzeug} request world post_id :
  (∀ c,
     add_new_post request world c
     = (if is_admin (app c) then add_new_post_wrapped request world c
        else (Raise (HTTPException 403), c))
     ∧ edit_post request post_id c
       = (if is_admin (app c) then edit_post_wrapped request post_id c
          else (Raise (HTTPException 403), c))
     ∧ delete_post post_id c
       = (if is_admin (app c) then delete_post_wrapped post_id c
          else (Raise (HTTPException 403), c)))
  ∧ (∀ st,
       serve (add_new_post request world) st
       = (if is_admin st then serve (add_new_post_wrapped request world) st
          else (error 403, st))
       ∧ serve (edit_post request post_id) st
         = (if is_admin st then serve (edit_post_wrapped request post_id) st
            else (error 403, st))
       ∧ serve (delete_post post_id) st
         = (if is_admin st then serve (delete_post_wrapped post_id) st
            else (error 403, st))).
Proof.
  split.
  - intros c. repeat split; apply admin_only_eq.
  - intros st. repeat split; apply serve_admin_only.
Qed.

(** ** Unknown post ids *)

Lemma get_or_404_absent post_id c :
  blog_posts (db (app c)) !! post_id = None →
  sqlite_integer post_id = true →
  get_or_404 post_id c = (Raise (HTTPException 404), c).
Proof.
  intros Hp Hrange. unfold get_or_404. rewrite bind_gets. by rewrite Hp, Hrange.
Qed.

Lemma get_or_404_raises post_id c :
  blog_posts (db (app c)) !! post_id = None →
  ∃ e, get_or_404 post_id c = (Raise e, c).
Proof.
  intros Hp. unfold get_or_404. rewrite bind_gets. rewrite Hp.
  destruct (sqlite_integer post_id); by eexists.
Qed.

(** The rows listed are the rows stored, each once. *)
Lemma elem_of_select {A} (table : gmap Z A) k x :
  (k, x) ∈ select table ↔ table !! k = Some x.
Proof.
  unfold select. rewrite merge_sort_Permutation. apply elem_of_map_to_list.
Qed.

Lemma NoDup_select {A} (table : gmap Z A) : NoDup (select table).
Proof.
  unfold select. rewrite merge_sort_Permutation. apply NoDup_map_to_list.
Qed.

Lemma get_or_404_present post_id post c :
  blog_posts (db (app c)) !! post_id = Some post →
  get_or_404 post_id c = (Ok post, c).
Proof. intros Hp. unfold get_or_404. rewrite bind_gets. by rewrite Hp. Qed.

Lemma serve_raise (view : M Response) st e c :
  view (mkCtx st [] 0) = (Raise e, c) → serve view st = (handle_exception e, app c).
Proof. intros Hv. unfold serve. by rewrite Hv. Qed.

Lemma serve_ok (view : M Response) st r c :
  view (mkCtx st [] 0) = (Ok r, c) → serve view st = (r, app c).
Proof. intros Hv. unfold serve. by rewrite Hv. Qed.

Section UnknownPost.
Context `{forms : Forms} `{werkzeug : Werkzeug}.
Variable request : Request.

Lemma show_post_absent post_id c :
  blog_posts (db (app c)) !! post_id = None →
  sqlite_integer post_id = true →
  show_post request post_id c = (Raise (HTTPException 404), c).
Proof.
  intros Hp Hrange. unfold show_post.
  by apply bind_raise, get_or_404_absent.
Qed.

Lemma edit_post_wrapped_absent post_id c :
  blog_posts (db (app c)) !! post_id = None →
  sqlite_integer post_id = true →
  edit_post_wrapped request post_id c = (Raise (HTTPException 404), c).
Proof.
  intros Hp Hrange. unfold edit_post_wrapped.
  by apply bind_raise, get_or_404_absent.
Qed.

Lemma delete_post_wrapped_absent post_id c :
  blog_posts (db (app c)) !! post_id = None →
  sqlite_integer post_id = true →
  delete_post_wrapped post_id c = (Raise (HTTPException 404), c).
Proof.
  intros Hp Hrange. unfold delete_post_wrapped.
  by apply bind_raise, get_or_404_absent.
Qed.

End UnknownPost.

(** C2, as the code has it. For a post id that is not stored and that the
    database takes as an integer, show-post answers 404; edit-post and
    delete-post answer 404 to the administrator and 403 to everyone else;
    in every case the state is left as it was. *)
Theorem unknown_post_404_behind_the_guard
  `{forms : Forms} `{werkzeug : Werkzeug} request post_id st :
  blog_posts (db st) !! post_id = None →
  sqlite_integer post_id = true →
  serve (show_post request post_id) st = (error 404, st)
  ∧ serve (edit_post request post_id) st
    = (error (if is_admin st then 404 else 403), st)
  ∧ serve (delete_post post_id) st
    = (error (if is_admin st then 404 else 403), st).
Proof.
  intros Hp Hrange. split; [|split].
  - by apply (serve_raise _ _ (HTTPException 404) (mkCtx st [] 0)), show_post_absent.
  - unfold edit_post. rewrite serve_admin_only. destruct (is_admin st); [|done].
    by apply (serve_raise _ _ (HTTPException 404) (mkCtx st [] 0)), edit_post_wrapped_absent.
  - unfold delete_post. rewrite serve_admin_only. destruct (is_admin st); [|done].
    by apply (serve_raise _ _ (HTTPException 404) (mkCtx st [] 0)), delete_post_wrapped_absent.
Qed.

Lemma unknown_post_404_behind_the_guard_witness :
  blog_posts (db as_admin) !! 7 = None
  ∧ serve (show_post (forms:=sample_forms) get_request 7) as_admin = (error 404, as_admin)
  ∧ serve (edit_post (forms:=sample_forms) get_request 7) as_admin = (error 404, as_admin)
  ∧ serve (delete_post 7) as_admin = (error 404, as_admin).
Proof.
  split; [reflexivity|].
  apply (unknown_post_404_behind_the_guard (forms:=sample_forms)
           (werkzeug:=sample_werkzeug) get_request 7 as_admin).
  - reflexivity.
  - reflexivity.
Defined.

(** C2, as the claim words it, fails: an anonymous visitor who asks to edit
    a post that is not stored is answered 403, not 404. *)
Lemma unknown_post_edit_not_404_for_anonymous :
  blog_posts (db as_anonymous) !! 7 = None
  ∧ (serve (edit_post (forms:=sample_forms) get_request 7) as_anonymous).1 = error 403
  ∧ (serve (edit_post (forms:=sample_forms) get_request 7) as_anonymous).1 ≠ error 404.
Proof. split; [reflexivity|]. split; [reflexivity|]. vm_compute. discriminate. Qed.

(** C9. On edit-post and delete-post the guard comes before the lookup: a
    request from anyone but the administrator for a post id that is not
    stored is answered 403, not 404, with the state left as it was, and
    whatever the guard wraps is never consulted. *)
Theorem guard_precedes_lookup
  `{forms : Forms} `{werkzeug : Werkzeug} request post_id st :
  is_admin st = false →
  blog_posts (db st) !! post_id = None →
  serve (edit_post request post_id) st = (error 403, st)
  ∧ serve (delete_post post_id) st = (error 403, st)
  ∧ error 403 ≠ error 404
  ∧ ∀ (wrapped : M Response) c,
      app c = st → admin_only wrapped c = (Raise (HTTPException 403), c).
Proof.
  intros Ha _. repeat split.
  - unfold edit_post. by rewrite serve_admin_only, Ha.
  - unfold delete_post. by rewrite serve_admin_only, Ha.
  - discriminate.
  - intros wrapped c <-. by rewrite admin_only_eq, Ha.
Qed.

Lemma guard_precedes_lookup_witness :
  serve (edit_post (forms:=sample_forms) get_request 7) as_reader = (error 403, as_reader)
  ∧ serve (delete_post 7) as_reader = (error 403, as_reader)
  ∧ error 403 ≠ error 404
  ∧ ∀ (wrapped : M Response) c,
      app c = as_reader → admin_only wrapped c = (Raise (HTTPException 403), c).
Proof.
  apply (guard_precedes_lookup (forms:=sample_forms) (werkzeug:=sample_werkzeug)
           get_request 7 as_reader); reflexivity.
Defined.

(** ** Queries by email *)

Lemma query_email_found e (us : gmap Z User.t) k u :
  us !! k = Some u → User.email u = e →
  ∃ k' u', User_query_filter_by_email_first e us = Some (k', u').
Proof.
  intros Hk He. unfold User_query_filter_by_email_first.
  destruct (List.find _ _) as [[k' u']|] eqn:Hf; [eauto|].
  exfalso. pose proof (find_none _ _ Hf (k, u)) as Hn. simpl in Hn.
  apply bool_decide_eq_false in Hn; [done|].
  by apply list_elem_of_In, elem_of_select.
Qed.

Lemma query_email_sound e (us : gmap Z User.t) k u :
  User_query_filter_by_email_first e us = Some (k, u) →
  us !! k = Some u ∧ User.email u = e.
Proof.
  unfold User_query_filter_by_email_first. intros Hf.
  apply find_some in Hf as [Hin He]. split.
  - by apply elem_of_select, list_elem_of_In.
  - by apply bool_decide_eq_true in He.
Qed.

Lemma validate_on_submit_post request v :
  validate_on_submit request v = true →
  bool_decide (method request = POST) = true ∧ v = true.
Proof. unfold validate_on_submit, is_submitted. by intros [??]%andb_true_iff. Qed.

(** ** Registration and login *)

(** C3. A registration whose email already belongs to a stored user leaves
    the users table (indeed the whole database) as it was, and a submission
    of it (a POST whose form validates) is answered with the flashed message
    and a redirect to the login page. *)
Theorem register_existing_email_adds_no_user
  `{forms : Forms} `{werkzeug : Werkzeug} request world st :
  (∃ k u, users (db st) !! k = Some u
          ∧ User.email u = RegisterForm.email (new_RegisterForm request)) →
  db (serve (register request world) st).2 = db st
  ∧ (validate_on_submit request (RegisterForm.validate (new_RegisterForm request)) = true →
     serve (register request world) st
     = (redirect to_login,
        set_flashes (flashes st ++ ["E-mail already registered!"]) st)).
Proof.
  intros (k & u & Hk & He).
  destruct (query_email_found _ _ _ _ Hk He) as (k' & u' & Hq).
  assert (Hv : validate_on_submit request
                 (RegisterForm.validate (new_RegisterForm request)) = true →
               serve (register request world) st
               = (redirect to_login,
                  set_flashes (flashes st ++ ["E-mail already registered!"]) st)).
  { intros [Hm Hv]%validate_on_submit_post.
    unfold serve, register, validate_on_submit, is_submitted.
    rewrite Hm, Hv. simpl. rewrite bind_gets. simpl. by rewrite Hq. }
  split; [|exact Hv].
  destruct (validate_on_submit request _) eqn:Hvalid.
  - by rewrite Hv.
  - unfold serve, register.
    replace (bool_decide (method request = POST) && _) with false; [done|].
    unfold validate_on_submit, is_submitted in *.
    by destruct (bool_decide (method request = POST)).
Qed.

Lemma register_existing_email_adds_no_user_witness :
  db (serve (register (forms:=sample_forms) (werkzeug:=sample_werkzeug)
               register_again quiet_world) as_anonymous).2 = db as_anonymous
  ∧ serve (register (forms:=sample_forms) (werkzeug:=sample_werkzeug)
             register_again quiet_world) as_anonymous
    = (redirect to_login,
       set_flashes (flashes as_anonymous ++ ["E-mail already registered!"]) as_anonymous).
Proof.
  destruct (register_existing_email_adds_no_user (forms:=sample_forms)
              (werkzeug:=sample_werkzeug) register_again quiet_world as_anonymous)
    as [Hdb Hresp].
  - exists 2, reader_row. split; reflexivity.
  - split; [exact Hdb|]. apply Hresp. reflexivity.
Defined.

(** C4. A login submission that fails establishes no session, and it fails
    the same way whether the email is unknown or the password does not match:
    the same redirect, the same flashed message, nothing else changed. Two
    such submissions to the same state cannot be told apart. *)
Theorem login_failures_indistinguishable
  `{forms : Forms} `{werkzeug : Werkzeug} request1 request2 st1 st2 :
  validate_on_submit request1 (LoginForm.validate (new_LoginForm request1)) = true →
  validate_on_submit request2 (LoginForm.validate (new_LoginForm request2)) = true →
  unknown_email request1 st1 →
  wrong_password request2 st2 →
  serve (login request1) st1
  = (redirect to_login, set_flashes (flashes st1 ++ ["Invalid email or password!"]) st1)
  ∧ serve (login request2) st2
    = (redirect to_login, set_flashes (flashes st2 ++ ["Invalid email or password!"]) st2)
  ∧ user_id (serve (login request1) st1).2 = user_id st1
  ∧ user_id (serve (login request2) st2).2 = user_id st2
  ∧ (st1 = st2 → serve (login request1) st1 = serve (login request2) st2).
Proof.
  intros Hv1 Hv2 Hunknown (k & u & Hq & Hcheck).
  assert (H1 : serve (login request1) st1
               = (redirect to_login,
                  set_flashes (flashes st1 ++ ["Invalid email or password!"]) st1)).
  { unfold serve, login. rewrite Hv1, bind_gets. simpl.
    unfold unknown_email in Hunknown. by rewrite Hunknown. }
  assert (H2 : serve (login request2) st2
               = (redirect to_login,
                  set_flashes (flashes st2 ++ ["Invalid email or password!"]) st2)).
  { unfold serve, login. rewrite Hv2, bind_gets. simpl. by rewrite Hq, Hcheck. }
  rewrite H1, H2. repeat split; try done. by intros ->.
Qed.

Lemma login_failures_indistinguishable_witness :
  serve (login (forms:=sample_forms) (werkzeug:=sample_werkzeug) login_unknown)
        as_anonymous
  = serve (login (forms:=sample_forms) (werkzeug:=sample_werkzeug) login_mistyped)
          as_anonymous.
Proof.
  apply (login_failures_indistinguishable (forms:=sample_forms)
           (werkzeug:=sample_werkzeug) login_unknown login_mistyped
           as_anonymous as_anonymous).
  - reflexivity.
  - reflexivity.
  - reflexivity.
  - exists 2, reader_row. split; reflexivity.
  - reflexivity.
Defined.

(** ** Comments *)

(** C5. A valid comment submission on a stored post from an anonymous
    visitor stores no comment (nothing in the database changes) and is
    answered with a flashed message and a redirect to the login page. *)
Theorem anonymous_comment_not_persisted
  `{forms : Forms} request post_id post st :
  blog_posts (db st) !! post_id = Some post →
  validate_on_submit request (CommentForm.validate (new_CommentForm request)) = true →
  is_authenticated (get_user st) = false →
  serve (show_post request post_id) st
  = (redirect to_login, set_flashes (flashes st ++ ["You have to login first!"]) st)
  ∧ comment (db (serve (show_post request post_id) st).2) = comment (db st).
Proof.
  intros Hp Hv Hanon.
  assert (Hs : serve (show_post request post_id) st
               = (redirect to_login,
                  set_flashes (flashes st ++ ["You have to login first!"]) st)).
  { unfold serve, show_post.
    rewrite (bind_ok _ _ _ post (mkCtx st [] 0)) by by apply get_or_404_present.
    rewrite bind_gets, Hv. unfold current_user. rewrite bind_gets. simpl.
    by rewrite Hanon. }
  by rewrite Hs.
Qed.

Lemma anonymous_comment_not_persisted_witness :
  serve (show_post (forms:=sample_forms) comment_hello 1) as_anonymous
  = (redirect to_login,
     set_flashes (flashes as_anonymous ++ ["You have to login first!"]) as_anonymous)
  ∧ comment (db (serve (show_post (forms:=sample_forms) comment_hello 1) as_anonymous).2)
    = comment (db as_anonymous).
Proof.
  apply (anonymous_comment_not_persisted (forms:=sample_forms)
           comment_hello 1 first_post as_anonymous); reflexivity.
Defined.

(** ** Editing a post *)

Lemma is_admin_current_user st :
  is_admin st = true → ∃ u, get_user st = Some (1, u).
Proof. apply is_admin_get_user. Qed.

(** C6, as the code has it. A valid edit-post submission by the
    administrator on a stored post, with a title that no other stored post
    has, replaces that row by one with the submitted title, subtitle, image
    URL and body, the administrator as author and the date it had, changes
    nothing else, and redirects to the post's page. With a title that
    another stored post has, the commit is refused: nothing changes and the
    answer is a server error. *)
Theorem edit_post_overwrites_fields
  `{forms : Forms} request post_id post st :
  is_admin st = true →
  blog_posts (db st) !! post_id = Some post →
  validate_on_submit request
    (CreatePostForm.validate (new_CreatePostForm request (Some post))) = true →
  serve (edit_post request post_id) st
  = if title_free (blog_posts (db st)) (Some post_id)
         (CreatePostForm.title (new_CreatePostForm request (Some post)))
    then
      (redirect (to_show_post post_id),
       set_db
         (mkDb (users (db st))
               (<[post_id :=
                    BlogPost.mk 1
                      (CreatePostForm.title (new_CreatePostForm request (Some post)))
                      (CreatePostForm.subtitle (new_CreatePostForm request (Some post)))
                      (BlogPost.date post)
                      (CreatePostForm.body (new_CreatePostForm request (Some post)))
                      (CreatePostForm.img_url (new_CreatePostForm request (Some post)))]>
                  (blog_posts (db st)))
               (comment (db st)))
         st)
    else (error 500, st).
Proof.
  intros Ha Hp Hv.
  unfold edit_post. rewrite serve_admin_only, Ha.
  destruct (is_admin_current_user st Ha) as [u Hu].
  unfold serve, edit_post_wrapped.
  rewrite (bind_ok _ _ _ post (mkCtx st [] 0)) by by apply get_or_404_present.
  rewrite Hv. unfold current_user. rewrite bind_gets. simpl. rewrite Hu. simpl.
  unfold mbind, M_bind, db_session_add, db_session_commit. simpl.
  rewrite Hp. simpl. by destruct (title_free _ _ _).
Qed.

Lemma edit_post_overwrites_fields_witness :
  serve (edit_post (forms:=sample_forms) edit_subtitle 2) as_admin
  = (redirect (to_show_post 2),
     set_db
       (mkDb (users sample_db)
             (<[2 := BlogPost.mk 1 "Again" "Revised" "April 06, 2024"
                       "<p>More</p>" "img/2.png"]> (blog_posts sample_db))
             (comment sample_db))
       as_admin).
Proof.
  apply (edit_post_overwrites_fields (forms:=sample_forms)
           edit_subtitle 2 second_post as_admin); reflexivity.
Defined.

(** C6, as the claim words it, fails: a valid edit-post submission by the
    administrator that gives the second post the title of the first is
    refused by the unique-title constraint, so nothing is overwritten and the
    answer is a server error, not a redirect. *)
Lemma edit_post_to_taken_title_rejected :
  is_admin as_admin = true
  ∧ blog_posts (db as_admin) !! 2 = Some second_post
  ∧ validate_on_submit edit_to_taken_title
      (CreatePostForm.validate
         (new_CreatePostForm (Forms:=sample_forms) edit_to_taken_title
            (Some second_post))) = true
  ∧ serve (edit_post (forms:=sample_forms) edit_to_taken_title 2) as_admin
    = (error 500, as_admin)
  ∧ (serve (edit_post (forms:=sample_forms) edit_to_taken_title 2) as_admin).1
    ≠ redirect (to_show_post 2).
Proof.
  split; [reflexivity|]. split; [reflexivity|]. split; [reflexivity|].
  split; [reflexivity|]. vm_compute. discriminate.
Qed.

(** ** The contact form *)

Lemma login_required_authenticated {A} (function : M A) c :
  is_authenticated (get_user (app c)) = true →
  login_required function c = function c.
Proof.
  intros Hauth. unfold login_required, current_user.
  by rewrite bind_gets, Hauth.
Qed.

Lemma smtp_call_accepted world call ev c :
  relay world call = true →
  smtp_call world call ev c
  = (Ok tt, set_app (set_smtp_log (smtp_log (app c) ++ [ev]) (app c)) c).
Proof. intros Hr. unfold smtp_call. by rewrite Hr. Qed.

Lemma smtp_call_refused world call ev c :
  relay world call = false →
  smtp_call world call ev c = (Raise (SMTPException call), c).
Proof. intros Hr. unfold smtp_call. by rewrite Hr. Qed.

Lemma contact_accepted request world st :
  is_authenticated (get_user st) = true →
  method request = POST →
  (∀ call, relay world call = true) →
  serve (contact request world) st
  = (redirect to_get_all_posts,
     set_smtp_log (smtp_log st ++ contact_exchange request world) st).
Proof.
  intros Hauth Hpost Hrelay.
  unfold serve, contact. rewrite login_required_authenticated by done.
  unfold contact_wrapped. rewrite Hpost. simpl.
  unfold SMTP, starttls, smtp_login, sendmail, close, smtp_call.
  rewrite !Hrelay. unfold mbind, M_bind, modify. simpl.
  unfold set_smtp_log, contact_exchange. simpl.
  by rewrite <- !app_assoc.
Qed.

(** C8, as the code has it. An authenticated POST to the contact handler,
    when the relay lets every SMTP call through, says exactly this to the
    relay: connect, TLS, login, one message whose body carries the
    submitted name, email and message, close; and it redirects home. *)
Theorem contact_sends_one_message request world st :
  is_authenticated (get_user st) = true →
  method request = POST →
  (∀ call, relay world call = true) →
  serve (contact request world) st
  = (redirect to_get_all_posts,
     set_smtp_log (smtp_log st ++ contact_exchange request world) st)
  ∧ contact_msg request
    = "By:" ++ format_value (form_get request "name") ++ "  "
            ++ format_value (form_get request "email") ++ newline
            ++ format_value (form_get request "message").
Proof.
  intros Hauth Hpost Hrelay. split; [|reflexivity].
  by apply contact_accepted.
Qed.

Lemma contact_sends_one_message_witness :
  serve (contact contact_full quiet_world) as_reader
  = (redirect to_get_all_posts,
     set_smtp_log (smtp_log as_reader ++ contact_exchange contact_full quiet_world)
                  as_reader).
Proof.
  apply (contact_sends_one_message contact_full quiet_world as_reader).
  - reflexivity.
  - reflexivity.
  - intros call. reflexivity.
Defined.

(** C8, as the claim words it, fails: when the relay rejects the
    credentials, an authenticated POST sends no message, leaves the
    connection open and is answered with a server error, not a redirect. *)
Lemma contact_rejected_credentials_no_message :
  is_authenticated (get_user as_reader) = true
  ∧ method contact_full = POST
  ∧ serve (contact contact_full rejecting_world) as_reader
    = (error 500,
       set_smtp_log [Connected "smtp.gmail.com"; TlsStarted] as_reader)
  ∧ (serve (contact contact_full rejecting_world) as_reader).1
    ≠ redirect to_get_all_posts
  ∧ (Closed ∉ smtp_log (serve (contact contact_full rejecting_world) as_reader).2)
  ∧ (∀ from_addr to_addrs msg,
       Sent from_addr to_addrs msg
       ∉ smtp_log (serve (contact contact_full rejecting_world) as_reader).2).
Proof.
  assert (Hlog : smtp_log (serve (contact contact_full rejecting_world) as_reader).2
                 = [Connected "smtp.gmail.com"; TlsStarted]) by reflexivity.
  split; [reflexivity|]. split; [reflexivity|]. split; [reflexivity|].
  split; [vm_compute; discriminate|].
  rewrite Hlog. split.
  - rewrite !elem_of_cons, elem_of_nil. intros [?|[?|[]]]; discriminate.
  - intros f t m. rewrite !elem_of_cons, elem_of_nil. intros [?|[?|[]]]; discriminate.
Qed.

(** The form with a field put in front: that field reads as the new value,
    every other field as before. *)
Lemma form_get_with_field key value request key' :
  form_get (with_field key value request) key'
  = if bool_decide (key = key') then Some value else form_get request key'.
Proof.
  unfold form_get, with_field. simpl. by case_bool_decide.
Qed.

Lemma format_value_with_none key request key' :
  form_get request key = None →
  format_value (form_get (with_field key "None" request) key')
  = format_value (form_get request key').
Proof.
  intros Habsent. rewrite form_get_with_field.
  case_bool_decide as Hk; [|done]. subst. by rewrite Habsent.
Qed.

(** C10, as the code has it. An authenticated POST to the contact handler
    with a form field absent is handled exactly as if the field had been
    submitted with the text [None], whatever the relay does: nothing checks
    the field, and the message body carries the text [None] in the place of
    the absent field. When the relay lets every call through, the message
    with that body is sent and the answer is the redirect home. *)
Theorem contact_absent_field_reads_None request world st key :
  is_authenticated (get_user st) = true →
  method request = POST →
  key ∈ ["name"; "email"; "message"] →
  form_get request key = None →
  (key = "name" →
   contact_msg request
   = "By:None  " ++ default "None" (form_get request "email") ++ newline
                 ++ default "None" (form_get request "message"))
  ∧ (key = "email" →
     contact_msg request
     = "By:" ++ default "None" (form_get request "name") ++ "  None" ++ newline
             ++ default "None" (form_get request "message"))
  ∧ (key = "message" →
     contact_msg request
     = "By:" ++ default "None" (form_get request "name") ++ "  "
             ++ default "None" (form_get request "email") ++ newline ++ "None")
  ∧ serve (contact request world) st
    = serve (contact (with_field key "None" request) world) st
  ∧ ((∀ call, relay world call = true) →
     serve (contact request world) st
     = (redirect to_get_all_posts,
        set_smtp_log
          (smtp_log st
           ++ [Connected "smtp.gmail.com";
               TlsStarted;
               LoggedIn (environ world "CONTACT_EMAIL") (environ world "CONTACT_PASS");
               Sent (environ world "CONTACT_EMAIL") (environ world "MY_EMAIL")
                    (contact_msg request);
               Closed])
          st)).
Proof.
  intros Hauth Hpost Hkey Habsent.
  assert (Hmsg : contact_msg request = contact_msg (with_field key "None" request)).
  { unfold contact_msg. by rewrite !format_value_with_none. }
  assert (Hbody : contact_msg request
                  = "By:" ++ default "None" (form_get request "name") ++ "  "
                          ++ default "None" (form_get request "email") ++ newline
                          ++ default "None" (form_get request "message")).
  { unfold contact_msg, format_value.
    by destruct (form_get request "name"), (form_get request "email"),
                (form_get request "message"). }
  split; [|split; [|split; [|split]]].
  - intros ->. rewrite Hbody, Habsent. reflexivity.
  - intros ->. rewrite Hbody, Habsent. reflexivity.
  - intros ->. rewrite Hbody, Habsent. reflexivity.
  - unfold serve, contact. rewrite !login_required_authenticated by done.
    unfold contact_wrapped. by rewrite <- Hmsg.
  - intros Hrelay. by apply contact_accepted.
Qed.

Lemma contact_absent_field_reads_None_witness :
  contact_msg contact_no_email = "By:Ann  None" ++ newline ++ "Hi"
  ∧ serve (contact contact_no_email quiet_world) as_reader
    = (redirect to_get_all_posts,
       set_smtp_log
         [Connected "smtp.gmail.com"; TlsStarted; LoggedIn None None;
          Sent None None ("By:Ann  None" ++ newline ++ "Hi"); Closed]
         as_reader).
Proof.
  destruct (contact_absent_field_reads_None contact_no_email quiet_world
              as_reader "email")
    as (_ & Hemail & _ & _ & Hsent).
  - reflexivity.
  - reflexivity.
  - apply list_elem_of_In. simpl. tauto.
  - reflexivity.
  - split; [exact (Hemail eq_refl)|]. apply Hsent. intros call. reflexivity.
Defined.

(** C10, as the claim words it, fails: with the email field absent and a
    relay that rejects the credentials, the handler does fail; no message
    is sent and the answer is a server error, not the redirect home. *)
Lemma contact_absent_field_relay_refuses :
  is_authenticated (get_user as_reader) = true
  ∧ method contact_no_email = POST
  ∧ form_get contact_no_email "email" = None
  ∧ serve (contact contact_no_email rejecting_world) as_reader
    = (error 500,
       set_smtp_log [Connected "smtp.gmail.com"; TlsStarted] as_reader)
  ∧ (serve (contact contact_no_email rejecting_world) as_reader).1
    ≠ redirect to_get_all_posts
  ∧ (∀ from_addr to_addrs msg,
       Sent from_addr to_addrs msg
       ∉ smtp_log (serve (contact contact_no_email rejecting_world) as_reader).2).
Proof.
  assert (Hlog : smtp_log (serve (contact contact_no_email rejecting_world)
                             as_reader).2
                 = [Connected "smtp.gmail.com"; TlsStarted]) by reflexivity.
  split; [reflexivity|]. split; [reflexivity|]. split; [reflexivity|].
  split; [reflexivity|]. split; [vm_compute; discriminate|].
  rewrite Hlog. intros f t m.
  rewrite !elem_of_cons, elem_of_nil. intros [?|[?|[]]]; discriminate.
Qed.

(** ** Title uniqueness *)

Lemma title_free_spec (ps : gmap Z BlogPost.t) except t :
  title_free ps except t = true ↔
  ∀ j q, ps !! j = Some q → Some j ≠ except → BlogPost.title q ≠ t.
Proof.
  unfold title_free. rewrite bool_decide_eq_true. split.
  - intros Hall j q Hj Hne. destruct (Hall j q Hj); [done|assumption].
  - intros Hall j q Hj. destruct (decide (Some j = except)); [by left|].
    right. by eapply Hall.
Qed.

Lemma title_taken (ps : gmap Z BlogPost.t) k p :
  ps !! k = Some p → title_free ps None (BlogPost.title p) = false.
Proof.
  intros Hk. apply not_true_is_false. intros Hfree.
  by eapply title_free_spec in Hfree.
Qed.

Lemma unique_titles_empty : unique_titles ∅.
Proof. intros i j p q Hi. by rewrite lookup_empty in Hi. Qed.

Lemma unique_titles_insert (ps : gmap Z BlogPost.t) k p :
  unique_titles ps →
  (∀ j q, ps !! j = Some q → j ≠ k → BlogPost.title q ≠ BlogPost.title p) →
  unique_titles (<[k:=p]> ps).
Proof.
  intros Hu Hfree i j p1 p2 Hi Hj Ht.
  destruct (decide (i = k)) as [->|Hik], (decide (j = k)) as [->|Hjk]; [done|..].
  - rewrite lookup_insert_eq in Hi. rewrite lookup_insert_ne in Hj by done.
    injection Hi as <-. by destruct (Hfree j p2 Hj Hjk).
  - rewrite lookup_insert_eq in Hj. rewrite lookup_insert_ne in Hi by done.
    injection Hj as <-. by destruct (Hfree i p1 Hi Hik).
  - rewrite lookup_insert_ne in Hi, Hj by done. by eapply Hu.
Qed.

Lemma unique_titles_delete (ps : gmap Z BlogPost.t) k :
  unique_titles ps → unique_titles (delete k ps).
Proof.
  intros Hu i j p q Hi Hj. apply lookup_delete_Some in Hi as [_ Hi].
  apply lookup_delete_Some in Hj as [_ Hj]. by eapply Hu.
Qed.

Lemma apply_change_unique_titles x d last d' last' :
  unique_titles (blog_posts d) →
  apply_change x d last = flushed d' last' →
  unique_titles (blog_posts d').
Proof.
  intros Hu. destruct x as [u|cm|p|id p|id]; simpl.
  - destruct (email_free _ _); [|done]. by intros [= <- _].
  - by intros [= <- _].
  - destruct (title_free _ _ _) eqn:Hfree; [|done]. intros [= <- _]. simpl.
    apply unique_titles_insert; [done|]. intros j q Hj _.
    by eapply title_free_spec in Hfree.
  - destruct (blog_posts d !! id); [|done].
    destruct (title_free _ _ _) eqn:Hfree; [|done]. intros [= <- _]. simpl.
    apply unique_titles_insert; [done|]. intros j q Hj Hne.
    eapply title_free_spec in Hfree; [done..|congruence].
  - intros [= <- _]. simpl. by apply unique_titles_delete.
Qed.

Lemma flush_unique_titles xs d last d' last' :
  unique_titles (blog_posts d) →
  flush xs d last = flushed d' last' →
  unique_titles (blog_posts d').
Proof.
  revert d last. induction xs as [|x xs IH]; intros d last Hu; simpl.
  - by intros [= <- _].
  - destruct (apply_change x d last) as [d1 last1|e] eqn:Hx; [|done].
    apply IH. by eapply apply_change_unique_titles.
Qed.

(** Rules for [keeps titles_ok], one per construct the handlers use. *)

Lemma keeps_mret {A} (a : A) : keeps titles_ok (mret a).
Proof. by intros c r c' Hc [= _ <-]. Qed.

Lemma keeps_bind {A B} (m : M A) (f : A → M B) :
  keeps titles_ok m → (∀ a, keeps titles_ok (f a)) → keeps titles_ok (m ≫= f).
Proof.
  intros Hm Hf c r c' Hc. unfold mbind, M_bind.
  destruct (m c) as [[a|e] c1] eqn:Hmc.
  - apply (Hf a). by eapply Hm.
  - intros [= _ <-]. by eapply Hm.
Qed.

Lemma keeps_gets {A} (g : State → A) : keeps titles_ok (gets g).
Proof. by intros c r c' Hc [= _ <-]. Qed.

Lemma keeps_raise {A} e : keeps titles_ok (raise (A:=A) e).
Proof. by intros c r c' Hc [= _ <-]. Qed.

Lemma keeps_modify (g : State → State) :
  (∀ st, db (g st) = db st) → keeps titles_ok (modify g).
Proof.
  intros Hg c r c' Hc [= _ <-]. unfold titles_ok in *. simpl. by rewrite Hg.
Qed.

Lemma keeps_db_session_add x : keeps titles_ok (db_session_add x).
Proof. by intros c r c' Hc [= _ <-]. Qed.

Lemma keeps_inserted_id : keeps titles_ok inserted_id.
Proof. by intros c r c' Hc [= _ <-]. Qed.

Lemma keeps_db_session_commit : keeps titles_ok db_session_commit.
Proof.
  intros c r c' Hc. unfold db_session_commit.
  destruct (flush _ _ _) as [d k|e] eqn:Hflush.
  - intros [= _ <-]. unfold titles_ok. simpl. by eapply flush_unique_titles.
  - by intros [= _ <-].
Qed.

Lemma keeps_smtp_call world call ev : keeps titles_ok (smtp_call world call ev).
Proof.
  unfold smtp_call. destruct (relay world call).
  - by apply keeps_modify.
  - apply keeps_raise.
Qed.

Create HintDb keeps.
#[local] Hint Resolve keeps_mret keeps_gets keeps_raise keeps_db_session_add
  keeps_inserted_id keeps_db_session_commit keeps_smtp_call : keeps.
#[local] Hint Extern 1 (keeps _ (modify _)) => by apply keeps_modify : keeps.

(** Walks a handler: splits each bind, cases on each test and match, and
    closes the leaves with the rules above. *)
Ltac keeps_walk :=
  repeat first
    [ progress auto with keeps
    | apply keeps_bind; [|intros ?]
    | match goal with
      | |- keeps _ (if ?b then _ else _) => destruct b
      | |- keeps _ (match ?x with _ => _ end) => destruct x
      | |- keeps _ (let _ := _ in _) => cbv zeta
      end ].

Section KeepsRoutes.
Context `{forms : Forms} `{werkzeug : Werkzeug}.

Lemma keeps_admin_only {A} (function : M A) :
  keeps titles_ok function → keeps titles_ok (admin_only function).
Proof. intros Hf. unfold admin_only, current_user, abort. keeps_walk. Qed.

Lemma keeps_login_required {A} (function : M A) :
  keeps titles_ok function → keeps titles_ok (login_required function).
Proof. intros Hf. unfold login_required, current_user, abort. keeps_walk. Qed.

Lemma keeps_view_function request world r :
  keeps titles_ok (view_function request world r).
Proof.
  destruct r; simpl.
  - unfold register, flash, login_user. keeps_walk.
  - unfold login, flash, login_user. keeps_walk.
  - unfold logout. apply keeps_login_required. unfold logout_user. keeps_walk.
  - unfold get_all_posts. keeps_walk.
  - unfold show_post, get_or_404, current_user, mapped_id, flash, abort. keeps_walk.
  - unfold add_new_post. apply keeps_admin_only.
    unfold add_new_post_wrapped, current_user, mapped_id. keeps_walk.
  - unfold edit_post. apply keeps_admin_only.
    unfold edit_post_wrapped, get_or_404, current_user, mapped_id, abort. keeps_walk.
  - unfold delete_post. apply keeps_admin_only.
    unfold delete_post_wrapped, get_or_404, db_session_delete, abort. keeps_walk.
  - unfold about. keeps_walk.
  - unfold contact. apply keeps_login_required.
    unfold contact_wrapped, SMTP, starttls, smtp_login, sendmail, close. keeps_walk.
Qed.

Lemma wsgi_app_titles_ok call st :
  titles_ok st → titles_ok (wsgi_app call st).2.
Proof.
  intros Hst. unfold wsgi_app, serve.
  assert (Hk : keeps titles_ok (dispatch_request call)).
  { unfold dispatch_request, abort.
    destruct (negb (url_matches (call_route call))); [apply keeps_raise|].
    case_bool_decide; [|apply keeps_raise]. apply keeps_view_function. }
  destruct (dispatch_request call (mkCtx st [] 0)) as [[r|e] c] eqn:Hd;
    simpl; exact (Hk (mkCtx st [] 0) _ _ Hst Hd).
Qed.

Lemma run_titles_ok calls st :
  titles_ok st → titles_ok (run calls st).
Proof.
  revert st. induction calls as [|call calls IH]; intros st Hst; [done|].
  simpl. apply IH. by apply wsgi_app_titles_ok.
Qed.

Lemma add_new_post_taken_title request world st k p :
  blog_posts (db st) !! k = Some p →
  BlogPost.title p = CreatePostForm.title (new_CreatePostForm request None) →
  (serve (add_new_post request world) st).2 = st
  ∧ (is_admin st = true →
     validate_on_submit request
       (CreatePostForm.validate (new_CreatePostForm request None)) = true →
     serve (add_new_post request world) st = (error 500, st)).
Proof.
  intros Hk Ht.
  assert (Hreject : is_admin st = true →
            validate_on_submit request
              (CreatePostForm.validate (new_CreatePostForm request None)) = true →
            serve (add_new_post_wrapped request world) st = (error 500, st)).
  { intros Ha Hv. destruct (is_admin_current_user st Ha) as [u Hu].
    unfold serve, add_new_post_wrapped. rewrite Hv.
    unfold current_user. rewrite bind_gets. simpl. rewrite Hu. simpl.
    unfold mbind, M_bind, db_session_add, db_session_commit. simpl.
    rewrite <- Ht. by rewrite (title_taken _ k p Hk). }
  unfold add_new_post. rewrite serve_admin_only.
  destruct (is_admin st) eqn:Ha; [|split; [done|discriminate]].
  destruct (validate_on_submit request _) eqn:Hv.
  - rewrite Hreject by done. by split.
  - split; [|discriminate]. unfold serve, add_new_post_wrapped. by rewrite Hv.
Qed.

End KeepsRoutes.

(** C7. Title uniqueness is an invariant: whatever requests are served, in
    whatever order, no two stored posts share a title if none did before, in
    particular from the empty table on. A create-post request whose title a
    stored post already has changes nothing at all, and when it is a valid
    submission by the administrator it is answered with a server error. *)
Theorem title_uniqueness_invariant `{forms : Forms} `{werkzeug : Werkzeug} :
  (∀ calls st,
     unique_titles (blog_posts (db st)) →
     unique_titles (blog_posts (db (run calls st))))
  ∧ (∀ calls st,
       blog_posts (db st) = ∅ →
       unique_titles (blog_posts (db (run calls st))))
  ∧ (∀ request world st k p,
       blog_posts (db st) !! k = Some p →
       BlogPost.title p = CreatePostForm.title (new_CreatePostForm request None) →
       (serve (add_new_post request world) st).2 = st
       ∧ (is_admin st = true →
          validate_on_submit request
            (CreatePostForm.validate (new_CreatePostForm request None)) = true →
          serve (add_new_post request world) st = (error 500, st))).
Proof.
  split; [|split].
  - intros calls st. apply run_titles_ok.
  - intros calls st Hempty. apply run_titles_ok. unfold titles_ok.
    rewrite Hempty. apply unique_titles_empty.
  - intros request world st k p. apply add_new_post_taken_title.
Qed.

Lemma title_uniqueness_invariant_witness :
  unique_titles
    (blog_posts
       (db (run (forms:=sample_forms) (werkzeug:=sample_werkzeug)
              [mkCall route_add_new_post create_hello quiet_world;
               mkCall route_add_new_post create_hello quiet_world;
               mkCall (route_edit_post 1) edit_subtitle quiet_world]
              fresh_admin)))
  ∧ serve (add_new_post (forms:=sample_forms) create_hello quiet_world) as_admin
    = (error 500, as_admin).
Proof.
  destruct (title_uniqueness_invariant (forms:=sample_forms)
              (werkzeug:=sample_werkzeug)) as (_ & Hfresh & Hcollide).
  split.
  - apply Hfresh. reflexivity.
  - apply (Hcollide create_hello quiet_world as_admin 1 first_post);
      reflexivity.
Defined.

(** Creating the same title twice from the empty table leaves one row. *)
Example second_create_leaves_one_row :
  select
    (blog_posts
       (db (run (forms:=sample_forms) (werkzeug:=sample_werkzeug)
              [mkCall route_add_new_post create_hello quiet_world;
               mkCall route_add_new_post create_hello quiet_world]
              fresh_admin)))
  = [(1, BlogPost.mk 1 "Hello" "Once more" "May 01, 2024" "<p>Again</p>" "img/3.png")].
Proof. reflexivity. Qed.

(** ** The model at work *)

Lemma le_foldr_max (l : list Z) (x : Z) : x ∈ l → (x ≤ foldr Z.max 0 l)%Z.
Proof.
  induction l as [|y l IH]; [by intros ?%elem_of_nil|].
  intros [->|Hx]%elem_of_cons; simpl; [lia|]. specialize (IH Hx). lia.
Qed.

(** The key an insert receives is not in use. *)
Lemma next_id_fresh {A} (table : gmap Z A) : table !! next_id table = None.
Proof.
  destruct (table !! next_id table) as [x|] eqn:Hk; [|done]. exfalso.
  assert (next_id table ∈ (map_to_list table).*1) as Hin.
  { apply list_elem_of_fmap. exists (next_id table, x).
    split; [done|]. by apply elem_of_map_to_list. }
  apply le_foldr_max in Hin. unfold next_id in Hin at 1. lia.
Qed.

(** Register, comment on a post, and read the comment back. *)
Example register_then_comment :
  let register_ann :=
    mkCall route_register
           (mkRequest POST [("name", "Ann"); ("email", "ann@blog.example");
                            ("password", "pw")]) quiet_world in
  let say_hello := mkCall (route_show_post 1) comment_hello quiet_world in
  let st := run (forms:=sample_forms) (werkzeug:=sample_werkzeug)
                [register_ann; say_hello] as_anonymous in
  user_id st = Some 3
  ∧ Comment_query_filter_by_post_id 1 (comment (db st))
    = [(1, Comment.mk 3 (Some 1) "hello")].
Proof. split; reflexivity. Qed.

(** The administrator creates a post and edits its subtitle: the title and
    the date stay, the subtitle is the new one. *)
Example create_then_edit :
  let st := run (forms:=sample_forms) (werkzeug:=sample_werkzeug)
                [mkCall route_add_new_post create_hello quiet_world;
                 mkCall (route_edit_post 1)
                        (mkRequest POST [("subtitle", "Revised")]) quiet_world]
                fresh_admin in
  blog_posts (db st) !! 1
  = Some (BlogPost.mk 1 "Hello" "Revised" "May 01, 2024" "<p>Again</p>" "img/3.png").
Proof. reflexivity. Qed.

(** An id beyond the database's integers is a server error on show-post,
    and a negative id matches no route. *)
Example show_post_beyond_integers :
  wsgi_app (forms:=sample_forms) (werkzeug:=sample_werkzeug)
           (mkCall (route_show_post (2 ^ 63)) get_request quiet_world) as_anonymous
  = (error 500, as_anonymous).
Proof. reflexivity. Qed.

Example negative_id_matches_no_route :
  wsgi_app (forms:=sample_forms) (werkzeug:=sample_werkzeug)
           (mkCall (route_edit_post (-1)) get_request quiet_world) as_anonymous
  = (error 404, as_anonymous).
Proof. reflexivity. Qed.

(** The index lists the sample posts in storage order. *)
Example index_in_storage_order :
  (serve get_all_posts as_anonymous).1
  = render_template (index_html [(1, first_post); (2, second_post)]).
Proof. reflexivity. Qed.

(** A route answers 405 to a method it does not list. *)
Example delete_by_post_not_allowed :
  wsgi_app (forms:=sample_forms) (werkzeug:=sample_werkzeug)
           (mkCall (route_delete_post 1) comment_hello quiet_world) as_admin
  = (error 405, as_admin).
Proof. reflexivity. Qed.

(** * Further properties of the handlers *)

(** ** Invariants, route by route *)

Lemma set_db_id st : set_db (db st) st = st.
Proof. by destruct st. Qed.

Section Frame.
Variable I : State → Prop.
Variable P : Change → Prop.
Hypothesis I_change : ∀ st x last d' last',
  I st → P x → apply_change x (db st) last = flushed d' last' → I (set_db d' st).

Lemma flush_tracked xs st last d' last' :
  I st → Forall P xs → flush xs (db st) last = flushed d' last' → I (set_db d' st).
Proof.
  revert st last. induction xs as [|x xs IH]; intros st last Hst Hxs; simpl.
  - intros [= <- _]. by rewrite set_db_id.
  - apply Forall_cons in Hxs as [Hx Hxs].
    destruct (apply_change x (db st) last) as [d1 last1|e] eqn:Hstep; [|done].
    intros Hflush.
    assert (I (set_db d1 st)) as H1 by by eapply I_change.
    by apply (IH (set_db d1 st) last1 H1 Hxs) in Hflush.
Qed.

Lemma holds_mret {A} (a : A) : holds (tracked I P) (mret a).
Proof. by intros c r c' Hc [= _ <-]. Qed.

Lemma holds_bind {A B} (m : M A) (f : A → M B) :
  holds (tracked I P) m → (∀ a, holds (tracked I P) (f a)) →
  holds (tracked I P) (m ≫= f).
Proof.
  intros Hm Hf c r c' Hc. unfold mbind, M_bind.
  destruct (m c) as [[a|e] c1] eqn:Hmc.
  - apply (Hf a). by eapply Hm.
  - intros [= _ <-]. by eapply Hm.
Qed.

Lemma holds_gets {A} (g : State → A) : holds (tracked I P) (gets g).
Proof. by intros c r c' Hc [= _ <-]. Qed.

Lemma holds_raise {A} e : holds (tracked I P) (raise (A:=A) e).
Proof. by intros c r c' Hc [= _ <-]. Qed.

Lemma holds_inserted_id : holds (tracked I P) inserted_id.
Proof. by intros c r c' Hc [= _ <-]. Qed.

Lemma holds_modify (g : State → State) :
  (∀ st, I st → I (g st)) → holds (tracked I P) (modify g).
Proof. intros Hg c r c' [Hi Hp] [= _ <-]. split; [by apply Hg|done]. Qed.

Lemma holds_db_session_add x : P x → holds (tracked I P) (db_session_add x).
Proof.
  intros Hx c r c' [Hi Hp] [= _ <-]. split; [done|]. simpl.
  apply Forall_app. split; [done|]. by apply Forall_singleton.
Qed.

Lemma holds_db_session_commit : holds (tracked I P) db_session_commit.
Proof.
  intros c r c' [Hi Hp]. unfold db_session_commit.
  destruct (flush _ _ _) as [d k|e] eqn:Hflush.
  - intros [= _ <-]. split; [|constructor]. simpl.
    by eapply flush_tracked.
  - by intros [= _ <-].
Qed.

Lemma holds_smtp_call world call ev :
  smtp_closed I → holds (tracked I P) (smtp_call world call ev).
Proof.
  intros Hsmtp. unfold smtp_call. destruct (relay world call).
  - apply holds_modify. intros st. apply Hsmtp.
  - apply holds_raise.
Qed.

Lemma holds_flash message : flash_closed I → holds (tracked I P) (flash message).
Proof. intros Hflash. apply holds_modify. intros st. apply Hflash. Qed.

Lemma holds_login_user k : user_closed I → holds (tracked I P) (login_user k).
Proof. intros Huser. apply holds_modify. intros st. apply Huser. Qed.

Lemma holds_logout_user : user_closed I → holds (tracked I P) logout_user.
Proof. intros Huser. apply holds_modify. intros st. apply Huser. Qed.

Lemma holds_close : smtp_closed I → holds (tracked I P) close.
Proof. intros Hsmtp. apply holds_modify. intros st. apply Hsmtp. Qed.

Lemma holds_get_or_404 post_id : holds (tracked I P) (get_or_404 post_id).
Proof.
  unfold get_or_404. apply holds_bind; [apply holds_gets|].
  intros [post|]; [apply holds_mret|].
  destruct (sqlite_integer post_id); apply holds_raise.
Qed.

Lemma holds_mapped_id cu : holds (tracked I P) (mapped_id cu).
Proof. destruct cu as [[k u]|]; [apply holds_mret|apply holds_raise]. Qed.

Lemma holds_admin_only {A} (function : M A) :
  holds (tracked I P) function → holds (tracked I P) (admin_only function).
Proof.
  intros Hf. unfold admin_only, current_user.
  apply holds_bind; [apply holds_gets|]. intros cu.
  destruct (_ || _); [apply holds_raise|done].
Qed.

Lemma holds_login_required {A} (function : M A) :
  holds (tracked I P) function → holds (tracked I P) (login_required function).
Proof.
  intros Hf. unfold login_required, current_user.
  apply holds_bind; [apply holds_gets|]. intros cu.
  destruct (negb _); [apply holds_raise|done].
Qed.

(** Walks a handler as [keeps_walk] does, for [holds (tracked I P)]. *)
Ltac holds_walk :=
  repeat first
    [ apply holds_mret | apply holds_gets | apply holds_raise
    | apply holds_inserted_id | apply holds_db_session_commit
    | apply holds_get_or_404 | apply holds_mapped_id
    | apply holds_flash; assumption
    | apply holds_login_user; assumption
    | apply holds_logout_user; assumption
    | apply holds_smtp_call; assumption
    | apply holds_close; assumption
    | apply holds_db_session_add; solve [auto]
    | apply holds_bind; [|intros ?]
    | match goal with
      | |- holds _ (if ?b then _ else _) => destruct b
      | |- holds _ (match ?x with _ => _ end) => destruct x
      | |- holds _ (let _ := _ in _) => cbv zeta
      end ].

Section FrameRoutes.
Context `{forms : Forms} `{werkzeug : Werkzeug}.
Variable request : Request.
Variable world : Ambient.

Lemma holds_register :
  flash_closed I → user_closed I → (∀ u, P (Add_User u)) →
  holds (tracked I P) (register request world).
Proof. intros Hflash Huser Hadd. unfold register. holds_walk. Qed.

Lemma holds_login :
  flash_closed I → user_closed I → holds (tracked I P) (login request).
Proof. intros Hflash Huser. unfold login. holds_walk. Qed.

Lemma holds_logout : user_closed I → holds (tracked I P) logout.
Proof.
  intros Huser. unfold logout. apply holds_login_required. holds_walk.
Qed.

Lemma holds_get_all_posts : holds (tracked I P) get_all_posts.
Proof. unfold get_all_posts. holds_walk. Qed.

Lemma holds_show_post post_id :
  flash_closed I → (∀ cm, P (Add_Comment cm)) →
  holds (tracked I P) (show_post request post_id).
Proof. intros Hflash Hadd. unfold show_post, current_user. holds_walk. Qed.

Lemma holds_add_new_post :
  (∀ p, P (Add_BlogPost p)) → holds (tracked I P) (add_new_post request world).
Proof.
  intros Hadd. unfold add_new_post. apply holds_admin_only.
  unfold add_new_post_wrapped, current_user. holds_walk.
Qed.

Lemma holds_edit_post post_id :
  (∀ id p, P (Dirty_BlogPost id p)) → holds (tracked I P) (edit_post request post_id).
Proof.
  intros Hdirty. unfold edit_post. apply holds_admin_only.
  unfold edit_post_wrapped, current_user. holds_walk.
Qed.

Lemma holds_delete_post post_id :
  (∀ id, P (Delete_BlogPost id)) → holds (tracked I P) (delete_post post_id).
Proof.
  intros Hdel. unfold delete_post. apply holds_admin_only.
  unfold delete_post_wrapped, db_session_delete. holds_walk.
Qed.

Lemma holds_about : holds (tracked I P) about.
Proof. unfold about. holds_walk. Qed.

Lemma holds_contact : smtp_closed I → holds (tracked I P) (contact request world).
Proof.
  intros Hsmtp. unfold contact. apply holds_login_required.
  unfold contact_wrapped, SMTP, starttls, smtp_login, sendmail. holds_walk.
Qed.

Lemma holds_view_function r :
  flash_closed I → user_closed I → smtp_closed I → (∀ x, P x) →
  holds (tracked I P) (view_function request world r).
Proof.
  intros Hflash Huser Hsmtp Hall. destruct r; simpl.
  - by apply holds_register.
  - by apply holds_login.
  - by apply holds_logout.
  - apply holds_get_all_posts.
  - by apply holds_show_post.
  - by apply holds_add_new_post.
  - by apply holds_edit_post.
  - by apply holds_delete_post.
  - apply holds_about.
  - by apply holds_contact.
Qed.

End FrameRoutes.

Lemma serve_tracked (view : M Response) st :
  holds (tracked I P) view → I st → I (serve view st).2.
Proof.
  intros Hview Hst. unfold serve.
  assert (tracked I P (mkCtx st [] 0)) as Hc by (split; [done|constructor]).
  destruct (view (mkCtx st [] 0)) as [[r|e] c] eqn:Hv; simpl;
    by destruct (Hview _ _ _ Hc Hv).
Qed.

Lemma wsgi_app_tracked `{forms : Forms} `{werkzeug : Werkzeug} call st :
  flash_closed I → user_closed I → smtp_closed I → (∀ x, P x) →
  I st → I (wsgi_app call st).2.
Proof.
  intros Hflash Huser Hsmtp Hall. unfold wsgi_app. apply serve_tracked.
  unfold dispatch_request, abort.
  destruct (negb (url_matches (call_route call))); [apply holds_raise|].
  case_bool_decide; [|apply holds_raise].
  by apply holds_view_function.
Qed.

Lemma run_tracked `{forms : Forms} `{werkzeug : Werkzeug} calls st :
  flash_closed I → user_closed I → smtp_closed I → (∀ x, P x) →
  I st → I (run calls st).
Proof.
  intros Hflash Huser Hsmtp Hall. revert st.
  induction calls as [|call calls IH]; intros st Hst; [done|].
  simpl. apply IH. by apply wsgi_app_tracked.
Qed.

End Frame.

(** ** What no sequence of requests undoes *)

Lemma closed_by_db (I : State → Prop) :
  (∀ st st', db st' = db st → I st → I st') →
  flash_closed I ∧ user_closed I ∧ smtp_closed I.
Proof.
  intros Hdb. repeat split; intros st x Hst; by apply (Hdb st).
Qed.

(** An invariant of the tables that every statement keeps is kept by every
    sequence of requests. *)
Lemma run_db_invariant `{forms : Forms} `{werkzeug : Werkzeug} (I : Db → Prop) :
  (∀ x d last d' last', I d → apply_change x d last = flushed d' last' → I d') →
  ∀ calls st, I (db st) → I (db (run calls st)).
Proof.
  intros Hchange calls st.
  destruct (closed_by_db (λ s, I (db s))) as (Hflash & Huser & Hsmtp).
  { by intros s s' ->. }
  apply (run_tracked (λ s, I (db s)) (λ _, True)); try done.
  intros s x last d' last' Hs _ Hx. simpl. by eapply Hchange.
Qed.

Lemma apply_change_users_grow x d last d' last' :
  apply_change x d last = flushed d' last' → users d ⊆ users d'.
Proof.
  destruct x as [u|cm|p|id p|id]; simpl.
  - destruct (email_free _ _); [|done]. intros [= <- _]. simpl.
    apply insert_subseteq, next_id_fresh.
  - by intros [= <- _].
  - destruct (title_free _ _ _); [|done]. by intros [= <- _].
  - destruct (blog_posts d !! id); [|done].
    destruct (title_free _ _ _); [|done]. by intros [= <- _].
  - by intros [= <- _].
Qed.

Lemma orphan_keeps id cm :
  Comment.author_id (orphan id cm) = Comment.author_id cm
  ∧ Comment.text (orphan id cm) = Comment.text cm
  ∧ (Comment.post_id (orphan id cm) = Comment.post_id cm
     ∨ Comment.post_id (orphan id cm) = None).
Proof. unfold orphan. case_bool_decide; simpl; auto. Qed.

Lemma apply_change_comment_kept x d last d' last' k cm :
  comment d !! k = Some cm →
  apply_change x d last = flushed d' last' →
  ∃ cm', comment d' !! k = Some cm'
         ∧ Comment.author_id cm' = Comment.author_id cm
         ∧ Comment.text cm' = Comment.text cm
         ∧ (Comment.post_id cm' = Comment.post_id cm ∨ Comment.post_id cm' = None).
Proof.
  intros Hk.
  assert (Hsame : ∀ cs : gmap Z Comment.t, cs !! k = Some cm →
            ∃ cm', cs !! k = Some cm'
                   ∧ Comment.author_id cm' = Comment.author_id cm
                   ∧ Comment.text cm' = Comment.text cm
                   ∧ (Comment.post_id cm' = Comment.post_id cm
                      ∨ Comment.post_id cm' = None)).
  { intros cs Hcs. exists cm. auto. }
  destruct x as [u|new|p|id p|id]; simpl.
  - destruct (email_free _ _); [|done]. intros [= <- _]. by apply Hsame.
  - intros [= <- _]. simpl. apply Hsame.
    rewrite lookup_insert_ne; [done|]. intros Heq.
    by rewrite <- Heq, next_id_fresh in Hk.
  - destruct (title_free _ _ _); [|done]. intros [= <- _]. by apply Hsame.
  - destruct (blog_posts d !! id); [|done].
    destruct (title_free _ _ _); [|done]. intros [= <- _]. by apply Hsame.
  - intros [= <- _]. simpl. exists (orphan id cm).
    split; [by rewrite lookup_fmap, Hk|]. apply orphan_keeps.
Qed.

(** X1. No sequence of requests removes a stored user or changes its email,
    password hash or name: every user row is still there, as it was. *)
Theorem users_are_never_removed_or_changed
  `{forms : Forms} `{werkzeug : Werkzeug} calls st k u :
  users (db st) !! k = Some u →
  users (db (run calls st)) !! k = Some u.
Proof.
  intros Hk.
  assert (users (db st) ⊆ users (db (run calls st))) as Hsub.
  { apply (run_db_invariant (λ d, users (db st) ⊆ users d)); [|done].
    intros x d last d' last' Hd Hx.
    etrans; [exact Hd|]. by eapply apply_change_users_grow. }
  by eapply lookup_weaken.
Qed.

Lemma users_are_never_removed_or_changed_witness :
  users
    (db (run (forms:=sample_forms) (werkzeug:=sample_werkzeug)
           [mkCall route_register register_again quiet_world;
            mkCall route_logout get_request quiet_world;
            mkCall (route_delete_post 1) get_request quiet_world]
           as_admin)) !! 2
  = Some reader_row.
Proof.
  apply (users_are_never_removed_or_changed (forms:=sample_forms)
           (werkzeug:=sample_werkzeug)).
  reflexivity.
Defined.

(** X2. No sequence of requests removes a stored comment or changes its
    author or its text. Its post id stays as it is or becomes NULL, which
    is what deleting the post does to it. *)
Theorem comments_are_never_removed
  `{forms : Forms} `{werkzeug : Werkzeug} calls st k cm :
  comment (db st) !! k = Some cm →
  ∃ cm',
    comment (db (run calls st)) !! k = Some cm'
    ∧ Comment.author_id cm' = Comment.author_id cm
    ∧ Comment.text cm' = Comment.text cm
    ∧ (Comment.post_id cm' = Comment.post_id cm ∨ Comment.post_id cm' = None).
Proof.
  intros Hk.
  apply (run_db_invariant
           (λ d, ∃ cm', comment d !! k = Some cm'
                        ∧ Comment.author_id cm' = Comment.author_id cm
                        ∧ Comment.text cm' = Comment.text cm
                        ∧ (Comment.post_id cm' = Comment.post_id cm
                           ∨ Comment.post_id cm' = None))).
  - intros x d last d' last' (cm1 & Hk1 & Ha1 & Ht1 & Hp1) Hx.
    destruct (apply_change_comment_kept x d last d' last' k cm1 Hk1 Hx)
      as (cm2 & Hk2 & Ha2 & Ht2 & Hp2).
    exists cm2. split; [done|]. split; [congruence|]. split; [congruence|].
    destruct Hp2 as [Hp2|Hp2]; [|by right]. rewrite Hp2. exact Hp1.
  - exists cm. auto.
Qed.

Lemma comments_are_never_removed_witness :
  ∃ cm',
    comment
      (db (run (forms:=sample_forms) (werkzeug:=sample_werkzeug)
             [mkCall (route_delete_post 1) get_request quiet_world;
              mkCall (route_show_post 2) comment_hello quiet_world]
             commented)) !! 1
    = Some cm'
    ∧ Comment.author_id cm' = Comment.author_id hello_comment
    ∧ Comment.text cm' = Comment.text hello_comment
    ∧ (Comment.post_id cm' = Comment.post_id hello_comment
       ∨ Comment.post_id cm' = None).
Proof.
  apply (comments_are_never_removed (forms:=sample_forms)
           (werkzeug:=sample_werkzeug)).
  reflexivity.
Defined.

(** Deleting the first post of the sample leaves its comment in the table,
    with no post. *)
Example delete_post_orphans_comment :
  comment
    (db (wsgi_app (forms:=sample_forms) (werkzeug:=sample_werkzeug)
           (mkCall (route_delete_post 1) get_request quiet_world) commented).2) !! 1
  = Some (Comment.mk 2 None "hello").
Proof. reflexivity. Qed.

Lemma email_free_spec (us : gmap Z User.t) e :
  email_free us e = true ↔ ∀ k u, us !! k = Some u → User.email u ≠ e.
Proof. unfold email_free. by rewrite bool_decide_eq_true. Qed.

Lemma unique_emails_insert (us : gmap Z User.t) k u :
  unique_emails us →
  (∀ j v, us !! j = Some v → User.email v ≠ User.email u) →
  unique_emails (<[k:=u]> us).
Proof.
  intros Hu Hfree i j u1 u2 Hi Hj He.
  destruct (decide (i = k)) as [->|Hik], (decide (j = k)) as [->|Hjk]; [done|..].
  - rewrite lookup_insert_eq in Hi. rewrite lookup_insert_ne in Hj by done.
    injection Hi as <-. by destruct (Hfree j u2 Hj).
  - rewrite lookup_insert_eq in Hj. rewrite lookup_insert_ne in Hi by done.
    injection Hj as <-. by destruct (Hfree i u1 Hi).
  - rewrite lookup_insert_ne in Hi, Hj by done. by eapply Hu.
Qed.

Lemma apply_change_unique_emails x d last d' last' :
  unique_emails (users d) →
  apply_change x d last = flushed d' last' →
  unique_emails (users d').
Proof.
  intros Hu. destruct x as [u|cm|p|id p|id]; simpl.
  - destruct (email_free _ _) eqn:Hfree; [|done]. intros [= <- _]. simpl.
    apply unique_emails_insert; [done|]. by apply email_free_spec.
  - by intros [= <- _].
  - destruct (title_free _ _ _); [|done]. by intros [= <- _].
  - destruct (blog_posts d !! id); [|done].
    destruct (title_free _ _ _); [|done]. by intros [= <- _].
  - by intros [= <- _].
Qed.

(** X3. Email uniqueness is an invariant: whatever requests are served, no
    two stored users share an email if none did before. *)
Theorem email_uniqueness_invariant
  `{forms : Forms} `{werkzeug : Werkzeug} calls st :
  unique_emails (users (db st)) →
  unique_emails (users (db (run calls st))).
Proof.
  apply (run_db_invariant (λ d, unique_emails (users d))).
  intros x d last d' last'. apply apply_change_unique_emails.
Qed.

Lemma unique_emails_fresh_admin : unique_emails (users (db fresh_admin)).
Proof.
  unfold fresh_admin. simpl. intros i j u v Hi Hj _.
  apply lookup_singleton_Some in Hi as [<- _].
  by apply lookup_singleton_Some in Hj as [<- _].
Qed.

Lemma email_uniqueness_invariant_witness :
  unique_emails
    (users
       (db (run (forms:=sample_forms) (werkzeug:=sample_werkzeug)
              [mkCall route_register register_ann quiet_world;
               mkCall route_register register_ann quiet_world]
              fresh_admin))).
Proof.
  apply (email_uniqueness_invariant (forms:=sample_forms)
           (werkzeug:=sample_werkzeug)).
  exact unique_emails_fresh_admin.
Defined.

(** ** Which request may change what *)

Lemma dispatch_cases `{forms : Forms} `{werkzeug : Werkzeug} call st :
  (wsgi_app call st).2 = st
  ∨ wsgi_app call st
    = serve (view_function (call_request call) (call_world call) (call_route call)) st.
Proof.
  unfold wsgi_app, dispatch_request.
  destruct (negb (url_matches (call_route call))); [by left|].
  case_bool_decide; [by right|by left].
Qed.

(** X4. A request from anyone but the administrator leaves the posts table
    as it was, whatever the route, the method and the form. *)
Theorem posts_change_only_for_admin
  `{forms : Forms} `{werkzeug : Werkzeug} call st :
  is_admin st = false →
  blog_posts (db (wsgi_app call st).2) = blog_posts (db st).
Proof.
  intros Ha. destruct (dispatch_cases call st) as [->| ->]; [done|].
  set (I := λ s : State, blog_posts (db s) = blog_posts (db st)).
  assert (Hchange : ∀ s x last d' last',
            I s → spares_posts x →
            apply_change x (db s) last = flushed d' last' → I (set_db d' s)).
  { intros s x last d' last' Hs Hx. unfold I in *. destruct x; try done; simpl.
    - destruct (email_free _ _); [|done]. by intros [= <-].
    - by intros [= <-]. }
  destruct (closed_by_db I) as (Hflash & Huser & Hsmtp).
  { unfold I. by intros s s' ->. }
  destruct (call_route call) as [| | | |post_id| |post_id|post_id| |];
    unfold view_function.
  - apply (serve_tracked I spares_posts); [|done]. by apply holds_register.
  - apply (serve_tracked I spares_posts); [|done]. by apply holds_login.
  - apply (serve_tracked I spares_posts); [|done]. by apply holds_logout.
  - apply (serve_tracked I spares_posts); [|done]. by apply holds_get_all_posts.
  - apply (serve_tracked I spares_posts); [|done]. by apply holds_show_post.
  - unfold add_new_post. by rewrite serve_admin_only, Ha.
  - unfold edit_post. by rewrite serve_admin_only, Ha.
  - unfold delete_post. by rewrite serve_admin_only, Ha.
  - apply (serve_tracked I spares_posts); [|done]. by apply holds_about.
  - apply (serve_tracked I spares_posts); [|done]. by apply holds_contact.
Qed.

Lemma posts_change_only_for_admin_witness :
  blog_posts
    (db (wsgi_app (forms:=sample_forms) (werkzeug:=sample_werkzeug)
           (mkCall (route_delete_post 1) get_request quiet_world) as_reader).2)
  = blog_posts (db as_reader).
Proof.
  apply (posts_change_only_for_admin (forms:=sample_forms)
           (werkzeug:=sample_werkzeug)).
  reflexivity.
Defined.

Lemma contact_quiet request world st :
  method request ≠ POST ∨ is_authenticated (get_user st) = false →
  (serve (contact request world) st).2 = st.
Proof.
  intros Hquiet. unfold serve, contact, login_required, current_user.
  rewrite bind_gets. simpl.
  destruct (is_authenticated (get_user st)) eqn:Hauth; simpl; [|done].
  destruct Hquiet as [Hget|?]; [|done].
  unfold contact_wrapped. by rewrite bool_decide_eq_false_2.
Qed.

(** X5. Nothing is said to the mail relay unless the request is a POST to
    the contact route from a logged-in user: every other request leaves the
    mail log as it was. *)
Theorem mail_only_from_authenticated_contact
  `{forms : Forms} `{werkzeug : Werkzeug} call st :
  call_route call ≠ route_contact
  ∨ method (call_request call) ≠ POST
  ∨ is_authenticated (get_user st) = false →
  smtp_log (wsgi_app call st).2 = smtp_log st.
Proof.
  intros Hquiet. destruct (dispatch_cases call st) as [->| ->]; [done|].
  set (I := λ s : State, smtp_log s = smtp_log st).
  assert (Hchange : ∀ s x last d' last',
            I s → True →
            apply_change x (db s) last = flushed d' last' → I (set_db d' s))
    by done.
  assert (Hflash : flash_closed I) by (by intros s message Hs).
  assert (Huser : user_closed I) by (by intros s u Hs).
  destruct (call_route call) as [| | | |post_id| |post_id|post_id| |];
    unfold view_function.
  - apply (serve_tracked I (λ _, True)); [|done]. by apply holds_register.
  - apply (serve_tracked I (λ _, True)); [|done]. by apply holds_login.
  - apply (serve_tracked I (λ _, True)); [|done]. by apply holds_logout.
  - apply (serve_tracked I (λ _, True)); [|done]. by apply holds_get_all_posts.
  - apply (serve_tracked I (λ _, True)); [|done]. by apply holds_show_post.
  - apply (serve_tracked I (λ _, True)); [|done]. by apply holds_add_new_post.
  - apply (serve_tracked I (λ _, True)); [|done]. by apply holds_edit_post.
  - apply (serve_tracked I (λ _, True)); [|done]. by apply holds_delete_post.
  - apply (serve_tracked I (λ _, True)); [|done]. by apply holds_about.
  - destruct Hquiet as [?|Hquiet]; [done|]. by rewrite contact_quiet.
Qed.

Lemma mail_only_from_authenticated_contact_witness :
  smtp_log
    (wsgi_app (forms:=sample_forms) (werkzeug:=sample_werkzeug)
       (mkCall route_contact contact_full quiet_world) as_anonymous).2
  = smtp_log as_anonymous.
Proof.
  apply (mail_only_from_authenticated_contact (forms:=sample_forms)
           (werkzeug:=sample_werkzeug)).
  right. right. reflexivity.
Defined.

(** X6. Only the register, login and logout routes change who is logged
    in: every other request leaves the login session as it was. *)
Theorem session_changes_only_on_auth_routes
  `{forms : Forms} `{werkzeug : Werkzeug} call st :
  call_route call ∉ [route_register; route_login; route_logout] →
  user_id (wsgi_app call st).2 = user_id st.
Proof.
  intros Hroute. destruct (dispatch_cases call st) as [->| ->]; [done|].
  set (I := λ s : State, user_id s = user_id st).
  assert (Hchange : ∀ s x last d' last',
            I s → True →
            apply_change x (db s) last = flushed d' last' → I (set_db d' s))
    by done.
  assert (Hflash : flash_closed I) by (by intros s message Hs).
  assert (Hsmtp : smtp_closed I) by (by intros s ev Hs).
  destruct (call_route call) as [| | | |post_id| |post_id|post_id| |];
    unfold view_function.
  - destruct Hroute. set_solver.
  - destruct Hroute. set_solver.
  - destruct Hroute. set_solver.
  - apply (serve_tracked I (λ _, True)); [|done]. by apply holds_get_all_posts.
  - apply (serve_tracked I (λ _, True)); [|done]. by apply holds_show_post.
  - apply (serve_tracked I (λ _, True)); [|done]. by apply holds_add_new_post.
  - apply (serve_tracked I (λ _, True)); [|done]. by apply holds_edit_post.
  - apply (serve_tracked I (λ _, True)); [|done]. by apply holds_delete_post.
  - apply (serve_tracked I (λ _, True)); [|done]. by apply holds_about.
  - apply (serve_tracked I (λ _, True)); [|done]. by apply holds_contact.
Qed.

Lemma session_changes_only_on_auth_routes_witness :
  user_id
    (wsgi_app (forms:=sample_forms) (werkzeug:=sample_werkzeug)
       (mkCall (route_show_post 1) comment_hello quiet_world) as_reader).2
  = user_id as_reader.
Proof.
  apply (session_changes_only_on_auth_routes (forms:=sample_forms)
           (werkzeug:=sample_werkzeug)).
  rewrite !elem_of_cons, elem_of_nil. intros [?|[?|[?|[]]]]; discriminate.
Defined.

(** ** Requests that only read *)

Lemma validate_on_submit_get request v :
  method request = GET → validate_on_submit request v = false.
Proof.
  intros Hget. unfold validate_on_submit, is_submitted.
  by rewrite bool_decide_eq_false_2 by (rewrite Hget; discriminate).
Qed.

(** X7. A GET request changes nothing at all (database, login session,
    flashed messages, mail log) on every route except logout and delete,
    whoever sends it. *)
Theorem get_requests_change_nothing
  `{forms : Forms} `{werkzeug : Werkzeug} call st :
  method (call_request call) = GET →
  call_route call ≠ route_logout →
  (∀ post_id, call_route call ≠ route_delete_post post_id) →
  (wsgi_app call st).2 = st.
Proof.
  intros Hget Hlogout Hdelete.
  destruct (dispatch_cases call st) as [->| ->]; [done|].
  pose proof (validate_on_submit_get (call_request call)) as Hv.
  destruct (call_route call) as [| | | |post_id| |post_id|post_id| |];
    unfold view_function.
  - unfold serve, register. by rewrite Hv, andb_false_r.
  - unfold serve, login. by rewrite Hv.
  - done.
  - done.
  - unfold serve, show_post.
    destruct (blog_posts (db st) !! post_id) as [post|] eqn:Hp.
    + rewrite (bind_ok _ _ _ post (mkCtx st [] 0)) by by apply get_or_404_present.
      by rewrite bind_gets, Hv.
    + destruct (get_or_404_raises post_id (mkCtx st [] 0) Hp) as [e He].
      by rewrite (bind_raise _ _ _ e (mkCtx st [] 0)).
  - unfold add_new_post. rewrite serve_admin_only. destruct (is_admin st); [|done].
    unfold serve, add_new_post_wrapped. by rewrite Hv.
  - unfold edit_post. rewrite serve_admin_only. destruct (is_admin st); [|done].
    unfold serve, edit_post_wrapped.
    destruct (blog_posts (db st) !! post_id) as [post|] eqn:Hp.
    + rewrite (bind_ok _ _ _ post (mkCtx st [] 0)) by by apply get_or_404_present.
      by rewrite Hv.
    + destruct (get_or_404_raises post_id (mkCtx st [] 0) Hp) as [e He].
      by rewrite (bind_raise _ _ _ e (mkCtx st [] 0)).
  - by destruct (Hdelete post_id).
  - done.
  - apply contact_quiet. left. rewrite Hget. discriminate.
Qed.

Lemma get_requests_change_nothing_witness :
  (wsgi_app (forms:=sample_forms) (werkzeug:=sample_werkzeug)
     (mkCall (route_edit_post 1) get_request quiet_world) as_admin).2
  = as_admin.
Proof.
  apply (get_requests_change_nothing (forms:=sample_forms)
           (werkzeug:=sample_werkzeug)).
  - reflexivity.
  - discriminate.
  - intros post_id. discriminate.
Defined.

(** ** Registering, logging in and logging out *)

Lemma query_email_none e (us : gmap Z User.t) :
  (∀ k u, us !! k = Some u → User.email u ≠ e) →
  User_query_filter_by_email_first e us = None.
Proof.
  intros Hfree.
  destruct (User_query_filter_by_email_first e us) as [[k u]|] eqn:Hq; [|done].
  apply query_email_sound in Hq as [Hk He]. by destruct (Hfree k u Hk).
Qed.

Lemma query_email_unique e (us : gmap Z User.t) k u :
  unique_emails us → us !! k = Some u → User.email u = e →
  User_query_filter_by_email_first e us = Some (k, u).
Proof.
  intros Huniq Hk He.
  destruct (query_email_found e us k u Hk He) as (k' & u' & Hq).
  rewrite Hq. apply query_email_sound in Hq as [Hk' He'].
  assert (k' = k) as -> by (eapply Huniq; [done..|congruence]).
  congruence.
Qed.

Section Accounts.
Context `{forms : Forms} `{werkzeug : Werkzeug}.

(** The registration of a new email, spelled out. *)
Lemma register_new_email request world st :
  validate_on_submit request (RegisterForm.validate (new_RegisterForm request)) = true →
  (∀ k u, users (db st) !! k = Some u
          → User.email u ≠ RegisterForm.email (new_RegisterForm request)) →
  serve (register request world) st
  = (redirect to_get_all_posts,
     set_user_id (Some (next_id (users (db st))))
       (set_db
          (mkDb (<[next_id (users (db st)) :=
                     User.mk (RegisterForm.email (new_RegisterForm request))
                             (generate_password_hash
                                (RegisterForm.password (new_RegisterForm request))
                                (salt world))
                             (RegisterForm.name (new_RegisterForm request))]>
                   (users (db st)))
                (blog_posts (db st)) (comment (db st)))
          st)).
Proof.
  intros [Hm Hv]%validate_on_submit_post Hfree.
  unfold serve, register, validate_on_submit, is_submitted.
  rewrite Hm, Hv. simpl. rewrite bind_gets. simpl.
  rewrite (query_email_none _ _ Hfree).
  unfold mbind, M_bind, db_session_add, db_session_commit. simpl.
  by rewrite (proj2 (email_free_spec _ _) Hfree).
Qed.

Lemma get_user_logged_in st k u :
  users (db st) !! k = Some u → user_id st = Some k → get_user st = Some (k, u).
Proof.
  intros Hk Hs. unfold get_user, load_user. rewrite Hs. simpl. by rewrite Hk.
Qed.

End Accounts.

(** X8. A valid registration with an email no stored user has adds exactly
    one user row, under a key that was not in use, holding the submitted
    name and email and the hash (not the text) of the submitted password;
    it logs that user in and redirects home. Posts and comments are as
    they were. *)
Theorem register_creates_user_and_logs_in
  `{forms : Forms} `{werkzeug : Werkzeug} request world st :
  validate_on_submit request (RegisterForm.validate (new_RegisterForm request)) = true →
  (∀ k u, users (db st) !! k = Some u
          → User.email u ≠ RegisterForm.email (new_RegisterForm request)) →
  ∃ k new_user st',
    serve (register request world) st = (redirect to_get_all_posts, st')
    ∧ new_user
      = User.mk (RegisterForm.email (new_RegisterForm request))
                (generate_password_hash
                   (RegisterForm.password (new_RegisterForm request)) (salt world))
                (RegisterForm.name (new_RegisterForm request))
    ∧ users (db st) !! k = None
    ∧ users (db st') = <[k:=new_user]> (users (db st))
    ∧ blog_posts (db st') = blog_posts (db st)
    ∧ comment (db st') = comment (db st)
    ∧ get_user st' = Some (k, new_user)
    ∧ flashes st' = flashes st
    ∧ smtp_log st' = smtp_log st.
Proof.
  intros Hv Hfree. eexists (next_id (users (db st))), _, _.
  split; [by apply register_new_email|].
  split; [done|]. split; [apply next_id_fresh|].
  repeat split. apply get_user_logged_in; [|done]. simpl. apply lookup_insert_eq.
Qed.

Lemma register_creates_user_and_logs_in_witness :
  ∃ k new_user st',
    serve (register (forms:=sample_forms) (werkzeug:=sample_werkzeug)
             register_ann quiet_world) as_anonymous
    = (redirect to_get_all_posts, st')
    ∧ new_user = User.mk "ann@blog.example" "plain$pw" "Ann"
    ∧ users (db as_anonymous) !! k = None
    ∧ users (db st') = <[k:=new_user]> (users (db as_anonymous))
    ∧ blog_posts (db st') = blog_posts (db as_anonymous)
    ∧ comment (db st') = comment (db as_anonymous)
    ∧ get_user st' = Some (k, new_user)
    ∧ flashes st' = flashes as_anonymous
    ∧ smtp_log st' = smtp_log as_anonymous.
Proof.
  apply (register_creates_user_and_logs_in (forms:=sample_forms)
           (werkzeug:=sample_werkzeug) register_ann quiet_world as_anonymous).
  - reflexivity.
  - intros k u Hk. unfold as_anonymous, sample_db in Hk. simpl in Hk.
    apply lookup_insert_Some in Hk as [[_ <-]|[_ Hk]]; [discriminate|].
    apply lookup_singleton_Some in Hk as [_ <-]. discriminate.
Defined.

Lemma next_id_empty {A} : next_id (∅ : gmap Z A) = 1.
Proof. unfold next_id. by rewrite map_to_list_empty. Qed.

Lemma is_admin_logged_in st u :
  user_id st = Some 1 → users (db st) !! 1 = Some u → is_admin st = true.
Proof. intros Hs Hu. apply is_admin_get_user. exists u. by apply get_user_logged_in. Qed.

(** X9. Who registers becomes the administrator exactly when the key the
    new row receives is 1: the first valid registration into an empty users
    table yields the administrator, and once row 1 is stored no registration
    does. *)
Theorem first_registration_is_admin
  `{forms : Forms} `{werkzeug : Werkzeug} request world st :
  validate_on_submit request (RegisterForm.validate (new_RegisterForm request)) = true →
  (∀ k u, users (db st) !! k = Some u
          → User.email u ≠ RegisterForm.email (new_RegisterForm request)) →
  (users (db st) = ∅ → is_admin (serve (register request world) st).2 = true)
  ∧ (is_Some (users (db st) !! 1) →
     is_admin (serve (register request world) st).2 = false).
Proof.
  intros Hv Hfree. rewrite (register_new_email request world st Hv Hfree). simpl.
  split.
  - intros Hempty. rewrite Hempty, next_id_empty.
    eapply is_admin_logged_in; [done|]. simpl. apply lookup_insert_eq.
  - intros [a Ha]. unfold is_admin. apply bool_decide_eq_false_2. simpl.
    intros [[= Hk] _]. pose proof (next_id_fresh (users (db st))) as Hfresh.
    rewrite Hk in Hfresh. congruence.
Qed.

Lemma first_registration_is_admin_witness :
  is_admin (serve (register (forms:=sample_forms) (werkzeug:=sample_werkzeug)
                     register_ann quiet_world) just_created).2 = true.
Proof.
  destruct (first_registration_is_admin (forms:=sample_forms)
              (werkzeug:=sample_werkzeug) register_ann quiet_world just_created)
    as [Hfirst _].
  - reflexivity.
  - intros k u Hk. unfold just_created in Hk. simpl in Hk.
    by rewrite lookup_empty in Hk.
  - apply Hfirst. reflexivity.
Defined.

(** X10. A valid login submission with the email of a stored user and a
    password that matches its hash logs that user in and redirects home;
    the identity of the next request is that user, whose email is the
    submitted one. Nothing else changes. Emails are assumed unique, as
    the application keeps them. *)
Theorem login_establishes_session
  `{forms : Forms} `{werkzeug : Werkzeug} request st k u :
  validate_on_submit request (LoginForm.validate (new_LoginForm request)) = true →
  unique_emails (users (db st)) →
  users (db st) !! k = Some u →
  User.email u = LoginForm.email (new_LoginForm request) →
  check_password_hash (User.password u)
                      (LoginForm.password (new_LoginForm request)) = true →
  serve (login request) st = (redirect to_get_all_posts, set_user_id (Some k) st)
  ∧ get_user (serve (login request) st).2 = Some (k, u).
Proof.
  intros Hv Huniq Hk He Hcheck.
  assert (Hs : serve (login request) st
               = (redirect to_get_all_posts, set_user_id (Some k) st)).
  { unfold serve, login. rewrite Hv, bind_gets. simpl.
    rewrite (query_email_unique _ _ k u Huniq Hk He). by rewrite Hcheck. }
  split; [done|]. rewrite Hs. by apply get_user_logged_in.
Qed.

Lemma unique_emails_sample : unique_emails (users sample_db).
Proof.
  intros i j u v Hi Hj He. unfold sample_db in Hi, Hj. simpl in Hi, Hj.
  apply lookup_insert_Some in Hi as [[<- <-]|[_ Hi]];
    apply lookup_insert_Some in Hj as [[<- <-]|[_ Hj]]; try done.
  - apply lookup_singleton_Some in Hj as [_ <-]. discriminate.
  - apply lookup_singleton_Some in Hi as [_ <-]. discriminate.
  - apply lookup_singleton_Some in Hi as [<- _].
    by apply lookup_singleton_Some in Hj as [<- _].
Qed.

Lemma login_establishes_session_witness :
  serve (login (forms:=sample_forms) (werkzeug:=sample_werkzeug) login_reader)
        as_anonymous
  = (redirect to_get_all_posts, set_user_id (Some 2) as_anonymous)
  ∧ get_user (serve (login (forms:=sample_forms) (werkzeug:=sample_werkzeug)
                       login_reader) as_anonymous).2
    = Some (2, reader_row).
Proof.
  apply (login_establishes_session (forms:=sample_forms)
           (werkzeug:=sample_werkzeug) login_reader as_anonymous 2 reader_row).
  - reflexivity.
  - exact unique_emails_sample.
  - reflexivity.
  - reflexivity.
  - reflexivity.
Defined.

Lemma logout_eq st :
  serve logout st
  = if is_authenticated (get_user st)
    then (redirect to_get_all_posts, set_user_id None st)
    else (error 401, st).
Proof.
  unfold serve, logout, login_required, current_user. rewrite bind_gets. simpl.
  by destruct (is_authenticated (get_user st)).
Qed.

Lemma logout_anonymous st : get_user (serve logout st).2 = None.
Proof.
  rewrite logout_eq. destruct (get_user st) as [[k u]|] eqn:Hg; simpl; [done|].
  exact Hg.
Qed.

(** X11. Logout answers a logged-in user with a redirect home and clears
    the login session, and answers 401 to anyone else, changing nothing.
    Either way the next request is anonymous: create-post, edit-post and
    delete-post then answer 403 and the contact route 401. *)
Theorem logout_ends_session
  `{forms : Forms} `{werkzeug : Werkzeug} st :
  serve logout st
  = (if is_authenticated (get_user st)
     then (redirect to_get_all_posts, set_user_id None st)
     else (error 401, st))
  ∧ get_user (serve logout st).2 = None
  ∧ ∀ request world post_id,
      let st' := (serve logout st).2 in
      serve (add_new_post request world) st' = (error 403, st')
      ∧ serve (edit_post request post_id) st' = (error 403, st')
      ∧ serve (delete_post post_id) st' = (error 403, st')
      ∧ serve (contact request world) st' = (error 401, st').
Proof.
  split; [apply logout_eq|]. split; [apply logout_anonymous|].
  intros request world post_id st'.
  assert (Hanon : get_user st' = None) by apply logout_anonymous.
  assert (Ha : is_admin st' = false).
  { apply not_true_is_false. intros [u Hu]%is_admin_get_user. congruence. }
  unfold add_new_post, edit_post, delete_post. rewrite !serve_admin_only, Ha.
  repeat split.
  unfold serve, contact, login_required, current_user. rewrite bind_gets. simpl.
  by rewrite Hanon.
Qed.

Lemma query_email_inserted (us : gmap Z User.t) k u :
  (∀ j v, us !! j = Some v → User.email v ≠ User.email u) →
  User_query_filter_by_email_first (User.email u) (<[k:=u]> us) = Some (k, u).
Proof.
  intros Hfree.
  destruct (query_email_found (User.email u) (<[k:=u]> us) k u) as (k' & u' & Hq);
    [apply lookup_insert_eq|done|].
  rewrite Hq. apply query_email_sound in Hq as [Hk' He'].
  apply lookup_insert_Some in Hk' as [[<- <-]|[_ Hk']]; [done|].
  by destruct (Hfree k' u' Hk').
Qed.

(** X12. Register, log out, log in again: when checking a password against
    its own hash succeeds, a valid login with the email and password just
    registered is accepted and puts the application back in the state the
    registration left, with that user logged in. *)
Theorem register_logout_login_round_trip
  `{forms : Forms} `{werkzeug : Werkzeug} request1 world request2 st :
  (∀ password salt,
     check_password_hash (generate_password_hash password salt) password = true) →
  validate_on_submit request1 (RegisterForm.validate (new_RegisterForm request1)) = true →
  (∀ k u, users (db st) !! k = Some u
          → User.email u ≠ RegisterForm.email (new_RegisterForm request1)) →
  validate_on_submit request2 (LoginForm.validate (new_LoginForm request2)) = true →
  LoginForm.email (new_LoginForm request2)
  = RegisterForm.email (new_RegisterForm request1) →
  LoginForm.password (new_LoginForm request2)
  = RegisterForm.password (new_RegisterForm request1) →
  let st1 := (serve (register request1 world) st).2 in
  let st2 := (serve logout st1).2 in
  user_id st2 = None
  ∧ serve (login request2) st2 = (redirect to_get_all_posts, st1).
Proof.
  intros Hhash Hv1 Hfree Hv2 He Hp st1 st2. subst st1 st2.
  rewrite (register_new_email request1 world st Hv1 Hfree). simpl.
  set (new_user := User.mk _ _ _).
  set (k := next_id (users (db st))).
  assert (Hq : User_query_filter_by_email_first
                 (LoginForm.email (new_LoginForm request2))
                 (<[k:=new_user]> (users (db st))) = Some (k, new_user)).
  { rewrite He. by apply (query_email_inserted (users (db st)) k new_user). }
  rewrite logout_eq.
  rewrite (get_user_logged_in _ k new_user); [|apply lookup_insert_eq|done].
  simpl. split; [done|].
  unfold serve, login. rewrite Hv2, bind_gets. simpl. rewrite Hq, Hp.
  subst new_user. simpl. by rewrite Hhash.
Qed.

Lemma register_logout_login_round_trip_witness :
  let st1 := (serve (register (forms:=sample_forms) (werkzeug:=sample_werkzeug)
                       register_ann quiet_world) as_anonymous).2 in
  let st2 := (serve logout st1).2 in
  user_id st2 = None
  ∧ serve (login (forms:=sample_forms) (werkzeug:=sample_werkzeug) login_ann) st2
    = (redirect to_get_all_posts, st1).
Proof.
  apply (register_logout_login_round_trip (forms:=sample_forms)
           (werkzeug:=sample_werkzeug) register_ann quiet_world login_ann
           as_anonymous).
  - intros password salt. simpl. by apply bool_decide_eq_true_2.
  - reflexivity.
  - intros k u Hk. unfold as_anonymous, sample_db in Hk. simpl in Hk.
    apply lookup_insert_Some in Hk as [[_ <-]|[_ Hk]]; [discriminate|].
    apply lookup_singleton_Some in Hk as [_ <-]. discriminate.
  - reflexivity.
  - reflexivity.
  - reflexivity.
Defined.

(** ** Posts and comments *)

Lemma comments_of_post post_id (cs : gmap Z Comment.t) k cm :
  (k, cm) ∈ Comment_query_filter_by_post_id post_id cs
  ↔ cs !! k = Some cm ∧ Comment.post_id cm = Some post_id.
Proof.
  unfold Comment_query_filter_by_post_id.
  rewrite list_elem_of_In, filter_In, <- list_elem_of_In, elem_of_select.
  simpl. by rewrite bool_decide_eq_true.
Qed.

Section Posts.
Context `{forms : Forms} `{werkzeug : Werkzeug}.

Lemma show_post_renders request post_id post st :
  blog_posts (db st) !! post_id = Some post →
  validate_on_submit request (CommentForm.validate (new_CommentForm request)) = false →
  serve (show_post request post_id) st
  = (render_template
       (post_html (post_id, post) (new_CommentForm request)
          (Comment_query_filter_by_post_id post_id (comment (db st)))),
     st).
Proof.
  intros Hp Hv. unfold serve, show_post.
  rewrite (bind_ok _ _ _ post (mkCtx st [] 0)) by by apply get_or_404_present.
  by rewrite bind_gets, Hv.
Qed.

Lemma show_post_comment_added request post_id post st k u :
  blog_posts (db st) !! post_id = Some post →
  validate_on_submit request (CommentForm.validate (new_CommentForm request)) = true →
  get_user st = Some (k, u) →
  serve (show_post request post_id) st
  = (redirect (to_show_post post_id),
     set_db
       (mkDb (users (db st)) (blog_posts (db st))
             (<[next_id (comment (db st)) :=
                  Comment.mk k (Some post_id)
                    (CommentForm.comment (new_CommentForm request))]>
                (comment (db st))))
       st).
Proof.
  intros Hp Hv Hu. unfold serve, show_post.
  rewrite (bind_ok _ _ _ post (mkCtx st [] 0)) by by apply get_or_404_present.
  rewrite bind_gets, Hv. unfold current_user. rewrite bind_gets. simpl.
  by rewrite Hu.
Qed.

Lemma delete_post_stored post_id post st :
  is_admin st = true →
  blog_posts (db st) !! post_id = Some post →
  serve (delete_post post_id) st
  = (redirect to_get_all_posts,
     set_db (mkDb (users (db st)) (delete post_id (blog_posts (db st)))
                  (orphan post_id <$> comment (db st))) st).
Proof.
  intros Ha Hp. unfold delete_post. rewrite serve_admin_only, Ha.
  unfold serve, delete_post_wrapped.
  by rewrite (bind_ok _ _ _ post (mkCtx st [] 0)) by by apply get_or_404_present.
Qed.

End Posts.

(** X13. The index page lists the stored posts, each exactly once and
    nothing else, and serving it changes nothing. *)
Theorem get_all_posts_lists_every_post st :
  ∃ all_posts,
    serve get_all_posts st = (render_template (index_html all_posts), st)
    ∧ NoDup all_posts
    ∧ ∀ k p, (k, p) ∈ all_posts ↔ blog_posts (db st) !! k = Some p.
Proof.
  exists (select (blog_posts (db st))). split; [done|].
  split; [apply NoDup_select|]. intros k p. apply elem_of_select.
Qed.

(** X14. Show-post on a stored post, when no valid comment is submitted
    (a GET, or a POST whose form does not validate), renders that post with
    exactly the comments stored for it, and changes nothing. *)
Theorem show_post_renders_post_and_its_comments
  `{forms : Forms} request post_id post st :
  blog_posts (db st) !! post_id = Some post →
  validate_on_submit request (CommentForm.validate (new_CommentForm request)) = false →
  ∃ post_comments,
    serve (show_post request post_id) st
    = (render_template
         (post_html (post_id, post) (new_CommentForm request) post_comments), st)
    ∧ ∀ k cm, (k, cm) ∈ post_comments
              ↔ comment (db st) !! k = Some cm ∧ Comment.post_id cm = Some post_id.
Proof.
  intros Hp Hv. eexists. split; [by apply show_post_renders|].
  intros k cm. apply comments_of_post.
Qed.

Lemma show_post_renders_post_and_its_comments_witness :
  ∃ post_comments,
    serve (show_post (forms:=sample_forms) get_request 1) commented
    = (render_template
         (post_html (1, first_post) (new_CommentForm (Forms:=sample_forms) get_request)
            post_comments), commented)
    ∧ ∀ k cm, (k, cm) ∈ post_comments
              ↔ comment (db commented) !! k = Some cm ∧ Comment.post_id cm = Some 1.
Proof.
  apply (show_post_renders_post_and_its_comments (forms:=sample_forms)
           get_request 1 first_post commented); reflexivity.
Defined.

(** X15. A valid comment submission by a logged-in user on a stored post
    adds one comment row, under a key that was not in use, with that user
    as author, that post as parent and the submitted text; it redirects to
    the post, and the post's page then lists the new comment. Users, posts
    and the login session are as they were. *)
Theorem comment_is_stored_and_shown
  `{forms : Forms} request post_id post st k u :
  blog_posts (db st) !! post_id = Some post →
  validate_on_submit request (CommentForm.validate (new_CommentForm request)) = true →
  get_user st = Some (k, u) →
  ∃ key new_comment st',
    serve (show_post request post_id) st = (redirect (to_show_post post_id), st')
    ∧ new_comment
      = Comment.mk k (Some post_id) (CommentForm.comment (new_CommentForm request))
    ∧ comment (db st) !! key = None
    ∧ db st'
      = mkDb (users (db st)) (blog_posts (db st))
             (<[key := new_comment]> (comment (db st)))
    ∧ user_id st' = user_id st
    ∧ ∀ request',
        validate_on_submit request'
          (CommentForm.validate (new_CommentForm request')) = false →
        ∃ post_comments,
          serve (show_post request' post_id) st'
          = (render_template
               (post_html (post_id, post) (new_CommentForm request') post_comments),
             st')
          ∧ (key, new_comment) ∈ post_comments.
Proof.
  intros Hp Hv Hu. eexists (next_id (comment (db st))), _, _.
  split; [by eapply show_post_comment_added|].
  split; [done|]. split; [apply next_id_fresh|]. split; [done|]. split; [done|].
  intros request' Hv'. eexists. split; [by apply show_post_renders|].
  apply comments_of_post. simpl. split; [apply lookup_insert_eq|done].
Qed.

Lemma comment_is_stored_and_shown_witness :
  ∃ key new_comment st',
    serve (show_post (forms:=sample_forms) comment_hello 1) as_reader
    = (redirect (to_show_post 1), st')
    ∧ new_comment = Comment.mk 2 (Some 1) "hello"
    ∧ comment (db as_reader) !! key = None
    ∧ db st'
      = mkDb (users (db as_reader)) (blog_posts (db as_reader))
             (<[key := new_comment]> (comment (db as_reader)))
    ∧ user_id st' = user_id as_reader
    ∧ ∀ request',
        validate_on_submit request'
          (CommentForm.validate (new_CommentForm (Forms:=sample_forms) request')) = false →
        ∃ post_comments,
          serve (show_post (forms:=sample_forms) request' 1) st'
          = (render_template
               (post_html (1, first_post)
                  (new_CommentForm (Forms:=sample_forms) request') post_comments),
             st')
          ∧ (key, new_comment) ∈ post_comments.
Proof.
  apply (comment_is_stored_and_shown (forms:=sample_forms)
           comment_hello 1 first_post as_reader 2 reader_row); reflexivity.
Defined.

(** X16. Deleting a stored post as the administrator removes that row and
    no other post and leaves the users alone. No comment row is removed:
    each comment written on the post keeps its author and text and has its
    post id set to NULL, and every other comment is as it was. The answer
    is a redirect home; afterwards, for an id the database takes as an
    integer, the post's page and a second delete answer 404. *)
Theorem delete_post_removes_only_the_post
  `{forms : Forms} request post_id post st :
  is_admin st = true →
  blog_posts (db st) !! post_id = Some post →
  ∃ st',
    serve (delete_post post_id) st = (redirect to_get_all_posts, st')
    ∧ blog_posts (db st') !! post_id = None
    ∧ (∀ other, other ≠ post_id →
                blog_posts (db st') !! other = blog_posts (db st) !! other)
    ∧ users (db st') = users (db st)
    ∧ (∀ k cm, comment (db st) !! k = Some cm →
               comment (db st') !! k
               = Some (if bool_decide (Comment.post_id cm = Some post_id)
                       then Comment.mk (Comment.author_id cm) None (Comment.text cm)
                       else cm))
    ∧ (∀ k, comment (db st) !! k = None → comment (db st') !! k = None)
    ∧ user_id st' = user_id st
    ∧ (sqlite_integer post_id = true →
       serve (show_post request post_id) st' = (error 404, st')
       ∧ serve (delete_post post_id) st' = (error 404, st')).
Proof.
  intros Ha Hp. eexists. split; [by eapply delete_post_stored|]. simpl.
  split; [apply lookup_delete_eq|].
  split; [by intros other Hne; apply lookup_delete_ne|].
  split; [done|].
  split; [by intros k cm Hk; rewrite lookup_fmap, Hk|].
  split; [by intros k Hk; rewrite lookup_fmap, Hk|].
  split; [done|]. intros Hrange.
  set (st' := set_db _ st).
  assert (Hgone : blog_posts (db st') !! post_id = None) by apply lookup_delete_eq.
  assert (Ha' : is_admin st' = true) by exact Ha.
  split.
  - unfold serve. by rewrite (show_post_absent request post_id (mkCtx st' [] 0)).
  - unfold delete_post. rewrite serve_admin_only, Ha'. unfold serve.
    by rewrite (delete_post_wrapped_absent post_id (mkCtx st' [] 0)).
Qed.

Lemma delete_post_removes_only_the_post_witness :
  ∃ st',
    serve (delete_post 1) commented = (redirect to_get_all_posts, st')
    ∧ blog_posts (db st') !! 1 = None
    ∧ comment (db st') !! 1 = Some (Comment.mk 2 None "hello")
    ∧ serve (show_post (forms:=sample_forms) get_request 1) st' = (error 404, st')
    ∧ serve (delete_post 1) st' = (error 404, st').
Proof.
  destruct (delete_post_removes_only_the_post (forms:=sample_forms)
              get_request 1 first_post commented)
    as (st' & Hserve & Hgone & _ & _ & Hcomments & _ & _ & Hafter);
    [reflexivity..|].
  exists st'. split; [exact Hserve|]. split; [exact Hgone|].
  split; [exact (Hcomments 1 hello_comment eq_refl)|].
  apply Hafter. reflexivity.
Defined.

(** X17. A valid create-post submission by the administrator with a title
    that no stored post has adds exactly one post row, under a key that was
    not in use, with the submitted title, subtitle, body and image URL, the
    administrator as author and the day's date; every stored post stays as
    it was and the answer is a redirect home. *)
Theorem add_new_post_adds_one_row
  `{forms : Forms} request world st :
  is_admin st = true →
  validate_on_submit request
    (CreatePostForm.validate (new_CreatePostForm request None)) = true →
  (∀ k p, blog_posts (db st) !! k = Some p
          → BlogPost.title p ≠ CreatePostForm.title (new_CreatePostForm request None)) →
  ∃ key new_post st',
    serve (add_new_post request world) st = (redirect to_get_all_posts, st')
    ∧ new_post
      = BlogPost.mk 1
          (CreatePostForm.title (new_CreatePostForm request None))
          (CreatePostForm.subtitle (new_CreatePostForm request None))
          (today world)
          (CreatePostForm.body (new_CreatePostForm request None))
          (CreatePostForm.img_url (new_CreatePostForm request None))
    ∧ blog_posts (db st) !! key = None
    ∧ db st'
      = mkDb (users (db st)) (<[key := new_post]> (blog_posts (db st)))
             (comment (db st))
    ∧ (∀ k p, blog_posts (db st) !! k = Some p → blog_posts (db st') !! k = Some p)
    ∧ user_id st' = user_id st.
Proof.
  intros Ha Hv Hfree. destruct (is_admin_current_user st Ha) as [u Hu].
  assert (Htitle : title_free (blog_posts (db st)) None
                     (CreatePostForm.title (new_CreatePostForm request None)) = true).
  { apply title_free_spec. intros j q Hj _. by apply (Hfree j q). }
  eexists (next_id (blog_posts (db st))), _, _. split.
  - unfold add_new_post. rewrite serve_admin_only, Ha.
    unfold serve, add_new_post_wrapped. rewrite Hv.
    unfold current_user. rewrite bind_gets. simpl. rewrite Hu. simpl.
    unfold mbind, M_bind, db_session_add, db_session_commit. simpl.
    rewrite Htitle. reflexivity.
  - split; [done|]. split; [apply next_id_fresh|]. split; [done|].
    split; [|done]. intros k p Hk. simpl.
    rewrite lookup_insert_ne; [done|]. intros <-.
    by rewrite next_id_fresh in Hk.
Qed.

Lemma add_new_post_adds_one_row_witness :
  ∃ key new_post st',
    serve (add_new_post (forms:=sample_forms) create_news quiet_world) as_admin
    = (redirect to_get_all_posts, st')
    ∧ new_post = BlogPost.mk 1 "News" "Fresh" "May 01, 2024" "<p>New</p>" "img/9.png"
    ∧ blog_posts (db as_admin) !! key = None
    ∧ db st'
      = mkDb (users (db as_admin)) (<[key := new_post]> (blog_posts (db as_admin)))
             (comment (db as_admin))
    ∧ (∀ k p, blog_posts (db as_admin) !! k = Some p
              → blog_posts (db st') !! k = Some p)
    ∧ user_id st' = user_id as_admin.
Proof.
  apply (add_new_post_adds_one_row (forms:=sample_forms)
           create_news quiet_world as_admin).
  - reflexivity.
  - reflexivity.
  - intros k p Hk. unfold as_admin, sample_db in Hk. simpl in Hk.
    apply lookup_insert_Some in Hk as [[_ <-]|[_ Hk]]; [discriminate|].
    apply lookup_singleton_Some in Hk as [_ <-]. discriminate.
Defined.

(** ** The mail exchange, whatever the relay does *)




(** ** The login session names a stored user *)

Section SessionValid.
Context `{forms : Forms} `{werkzeug : Werkzeug}.

Lemma login_cases request st :
  (serve (login request) st).2 = st
  ∨ (∃ message, (serve (login request) st).2
                = set_flashes (flashes st ++ [message]) st)
  ∨ (∃ k u, users (db st) !! k = Some u
            ∧ (serve (login request) st).2 = set_user_id (Some k) st).
Proof.
  unfold serve, login.
  destruct (validate_on_submit request _); [|by left].
  rewrite bind_gets. simpl.
  destruct (User_query_filter_by_email_first _ _) as [[k u]|] eqn:Hq.
  - destruct (check_password_hash _ _).
    + right. right. exists k, u. split; [|done].
      by apply query_email_sound in Hq as [Hk _].
    + right. left. by eexists.
  - right. left. by eexists.
Qed.

Lemma register_cases request world st :
  (serve (register request world) st).2 = st
  ∨ (∃ message, (serve (register request world) st).2
                = set_flashes (flashes st ++ [message]) st)
  ∨ (∃ k u, users (db st) !! k = None
            ∧ (serve (register request world) st).2
              = set_user_id (Some k)
                  (set_db (mkDb (<[k:=u]> (users (db st))) (blog_posts (db st))
                                (comment (db st))) st)).
Proof.
  destruct (validate_on_submit request
              (RegisterForm.validate (new_RegisterForm request))) eqn:Hv.
  - destruct (User_query_filter_by_email_first
                (RegisterForm.email (new_RegisterForm request)) (users (db st)))
      as [[k u]|] eqn:Hq.
    + right. left. exists "E-mail already registered!".
      apply validate_on_submit_post in Hv as [Hm Hv].
      unfold serve, register, validate_on_submit, is_submitted.
      rewrite Hm, Hv. simpl. rewrite bind_gets. simpl. by rewrite Hq.
    + right. right. eexists _, _. split; [apply next_id_fresh|].
      rewrite register_new_email; [done..|].
      intros k u Hk He.
      destruct (query_email_found _ _ _ _ Hk He) as (k' & u' & Hq'). congruence.
  - left. unfold serve, register.
    replace (bool_decide (method request = POST) && _) with false; [done|].
    unfold validate_on_submit, is_submitted in *.
    by destruct (bool_decide (method request = POST)).
Qed.

Lemma session_valid_step call st :
  session_valid st → session_valid (wsgi_app call st).2.
Proof.
  intros Hst. destruct (dispatch_cases call st) as [->| ->]; [done|].
  assert (Hchange : ∀ s x last d' last',
            session_valid s → True →
            apply_change x (db s) last = flushed d' last' →
            session_valid (set_db d' s)).
  { intros s x last d' last' Hs _ Hx k Hk. simpl.
    destruct (Hs k Hk) as [u Hu]. exists u.
    eapply lookup_weaken; [exact Hu|]. by eapply apply_change_users_grow. }
  assert (Hflash : flash_closed session_valid) by (by intros s message Hs).
  assert (Hsmtp : smtp_closed session_valid) by (by intros s ev Hs).
  destruct (call_route call) as [| | | |post_id| |post_id|post_id| |];
    unfold view_function.
  - destruct (register_cases (call_request call) (call_world call) st)
      as [->|[[message ->]|(k & u & Hk & ->)]]; [done..|].
    intros k' [= <-]. simpl. rewrite lookup_insert_eq. by eexists.
  - destruct (login_cases (call_request call) st)
      as [->|[[message ->]|(k & u & Hk & ->)]]; [done..|].
    intros k' [= <-]. simpl. by eexists.
  - rewrite logout_eq. by destruct (is_authenticated (get_user st)).
  - apply (serve_tracked session_valid (λ _, True)); [|done].
    by apply holds_get_all_posts.
  - apply (serve_tracked session_valid (λ _, True)); [|done].
    by apply holds_show_post.
  - apply (serve_tracked session_valid (λ _, True)); [|done].
    by apply holds_add_new_post.
  - apply (serve_tracked session_valid (λ _, True)); [|done].
    by apply holds_edit_post.
  - apply (serve_tracked session_valid (λ _, True)); [|done].
    by apply holds_delete_post.
  - apply (serve_tracked session_valid (λ _, True)); [|done]. by apply holds_about.
  - apply (serve_tracked session_valid (λ _, True)); [|done]. by apply holds_contact.
Qed.

End SessionValid.

(** X19. The login session never names a user that is not stored: if it
    does not before a sequence of requests, it does not after, so a client
    holding a session is always recognised as the user who logged in. *)
Theorem session_always_names_a_stored_user
  `{forms : Forms} `{werkzeug : Werkzeug} calls st :
  session_valid st →
  session_valid (run calls st)
  ∧ (is_authenticated (get_user (run calls st)) = false
     ↔ user_id (run calls st) = None).
Proof.
  intros Hst.
  assert (Hrun : session_valid (run calls st)).
  { revert st Hst. induction calls as [|call calls IH]; intros st Hst; [done|].
    simpl. apply IH. by apply session_valid_step. }
  split; [done|]. unfold get_user, load_user.
  destruct (user_id (run calls st)) as [k|] eqn:Hk; simpl; [|done].
  destruct (Hrun k Hk) as [u ->]. simpl. split; discriminate.
Qed.

Lemma session_always_names_a_stored_user_witness :
  session_valid
    (run (forms:=sample_forms) (werkzeug:=sample_werkzeug)
       [mkCall route_register register_ann quiet_world;
        mkCall route_logout get_request quiet_world;
        mkCall route_login login_ann quiet_world]
       just_created).
Proof.
  apply (session_always_names_a_stored_user (forms:=sample_forms)
           (werkzeug:=sample_werkzeug)).
  intros k Hk. discriminate.
Defined.
